(** * Virus population dynamics: a shallow embedding of [virus-dynamics.py]

    The Python program simulates a virus population inside one patient.
    Every method of the four classes ([SimpleVirus], [Patient],
    [ResistantVirus], [TreatedPatient]) is translated below into a
    computation of a small state-and-exception monad:

    - the process-wide random source [random.random()] is a stream of
      draws [rnd : nat -> Q] read through a cursor;
    - object creation takes a fresh object identity from a counter, because
      [list.remove] compares particles by identity (the classes define no
      [__eq__]);
    - Python exceptions ([NoChildException], [ZeroDivisionError],
      [ValueError], [KeyError]) are the [Raised] outcomes of the monad; the state reached
      when the exception is raised is kept, as in Python.

    Numbers: probabilities, densities and draws are rationals ([Q]); a
    Python float is read as the rational it denotes and float arithmetic as
    exact. [maxPop] is an integer ([Z]); population sizes are [nat].

    The virus objects are immutable after creation, so a reference to one is
    modelled by the record of its attributes together with its identity
    ([oid]). *)

From Stdlib Require Import String Bool Arith ZArith QArith Lia Lqa Permutation List.
Import ListNotations.

Set Implicit Arguments.

(** ** Exceptions and outcomes *)

Inductive exn : Type :=
| NoChildException
| ZeroDivisionError
| ValueError
| KeyError.

Definition exn_eqb (a b : exn) : bool :=
  match a, b with
  | NoChildException, NoChildException => true
  | ZeroDivisionError, ZeroDivisionError => true
  | ValueError, ValueError => true
  | KeyError, KeyError => true
  | _, _ => false
  end.

Inductive outcome (A : Type) : Type :=
| Returned (a : A)
| Raised (e : exn).

Arguments Returned {A} a.
Arguments Raised {A} e.

(** ** The monad: state passing with exceptions *)

Definition M (S A : Type) : Type := S -> outcome A * S.

Definition ret {S A} (a : A) : M S A := fun s => (Returned a, s).

Definition bind {S A B} (m : M S A) (k : A -> M S B) : M S B :=
  fun s =>
    match m s with
    | (Returned a, s') => k a s'
    | (Raised e, s') => (Raised e, s')
    end.

Definition raise {S A} (e : exn) : M S A := fun s => (Raised e, s).

(** [try: m except e: h] *)
Definition try_except {S A} (m : M S A) (e : exn) (h : M S A) : M S A :=
  fun s =>
    match m s with
    | (Returned a, s') => (Returned a, s')
    | (Raised e', s') => if exn_eqb e' e then h s' else (Raised e', s')
    end.

Declare Scope py_scope.
Delimit Scope py_scope with py.
Notation "x <- m ;; k" := (bind m (fun x => k))
  (at level 61, m at next level, right associativity) : py_scope.
Notation "m ;; k" := (bind m (fun _ => k))
  (at level 61, right associativity) : py_scope.
Open Scope py_scope.

(** [for x in xs: body], where [body] updates the loop's local variables
    (of type [L]). *)
Fixpoint for_in {S A L} (xs : list A) (body : A -> L -> M S L) (acc : L)
  : M S L :=
  match xs with
  | [] => ret acc
  | x :: xs' => acc' <- body x acc ;; for_in xs' body acc'
  end.

(** ** The ambient world: random source and object allocator *)

Record World : Type := mkWorld {
  rnd : nat -> Q;      (* the outcomes of [random.random()], in call order *)
  cursor : nat;        (* how many draws have been consumed *)
  fresh : nat          (* identity of the next object to be created *)
}.

(** [random.random()] *)
Definition random : M World Q :=
  fun w => (Returned (rnd w (cursor w)),
            mkWorld (rnd w) (S (cursor w)) (fresh w)).

(** allocation of an object identity *)
Definition new_object : M World nat :=
  fun w => (Returned (fresh w), mkWorld (rnd w) (cursor w) (S (fresh w))).

(** The world after [n] further draws. *)
Definition skip (n : nat) (w : World) : World :=
  mkWorld (rnd w) (n + cursor w) (fresh w).

(** Every outcome of [random.random()] lies in [[0,1)]. *)
Definition uniform_draws (w : World) : Prop :=
  forall i, 0 <= rnd w i /\ rnd w i < 1.

(** Running a world-level computation inside a method of a host [H]. *)
Definition lift {H A} (m : M World A) : M (H * World) A :=
  fun '(h, w) => let '(r, w') := m w in (r, (h, w')).

Definition get_self {H} : M (H * World) H := fun '(h, w) => (Returned h, (h, w)).
Definition set_self {H} (h : H) : M (H * World) unit :=
  fun '(_, w) => (Returned tt, (h, w)).

(** ** class SimpleVirus *)

Record SimpleVirus : Type := mkSimpleVirus {
  oid : nat;            (* object identity *)
  maxBirthProb : Q;
  clearProb : Q
}.

(** [SimpleVirus.__init__] *)
Definition SimpleVirus_init (maxBirthProb clearProb : Q) : M World SimpleVirus :=
  i <- new_object ;;
  ret (mkSimpleVirus i maxBirthProb clearProb).

Definition getMaxBirthProb (self : SimpleVirus) : Q := maxBirthProb self.
Definition getClearProb (self : SimpleVirus) : Q := clearProb self.

(** [SimpleVirus.doesClear] *)
Definition doesClear (self : SimpleVirus) : M World bool :=
  r <- random ;;
  if Qle_bool r (getClearProb self) then ret true else ret false.

(** [SimpleVirus.reproduce] *)
Definition SimpleVirus_reproduce (self : SimpleVirus) (popDensity : Q)
  : M World SimpleVirus :=
  let repProb := getMaxBirthProb self * (1 - popDensity) in
  r <- random ;;
  if Qle_bool r repProb
  then SimpleVirus_init (getMaxBirthProb self) (getClearProb self)
  else raise NoChildException.

(** ** Python lists of particles *)

(** Particles are compared by identity. Both virus classes are particles:
    [ResistantVirus] extends [SimpleVirus]. *)
Class Particle (V : Type) : Type := { simple : V -> SimpleVirus }.

#[export] Instance SimpleVirus_Particle : Particle SimpleVirus :=
  {| simple := fun v => v |}.

Definition same_object {V} `{Particle V} (x y : V) : bool :=
  oid (simple x) =? oid (simple y).

(** [l.remove(x)]: drops the first item equal to [x]; [None] stands for the
    [ValueError] raised when there is none. *)
Fixpoint list_remove {V} `{Particle V} (x : V) (l : list V) : option (list V) :=
  match l with
  | [] => None
  | y :: l' =>
      if same_object y x then Some l'
      else match list_remove x l' with
           | Some r => Some (y :: r)
           | None => None
           end
  end.

Definition remove {S V} `{Particle V} (x : V) (l : list V) : M S (list V) :=
  match list_remove x l with
  | Some l' => ret l'
  | None => raise ValueError
  end.

(** [a / b] on a length and an integer: true division. *)
Definition true_div {S} (a : nat) (b : Z) : M S Q :=
  if (b =? 0)%Z then raise ZeroDivisionError
  else ret (inject_Z (Z.of_nat a) / inject_Z b).

(** ** class Patient *)

Record Patient (V : Type) : Type := mkPatient {
  viruses : list V;
  maxPop : Z
}.

(** [Patient.__init__] *)
Definition Patient_init {V} (viruses : list V) (maxPop : Z)
  : outcome (Patient V) :=
  Returned (mkPatient viruses maxPop).

Definition getViruses {V} (self : Patient V) : list V := viruses self.
Definition getMaxPop {V} (self : Patient V) : Z := maxPop self.
Definition getTotalPop {V} (self : Patient V) : nat := length (viruses self).

(** Body of the first loop of [update]:
    [if virus.doesClear(): viruses_survived.remove(virus)] *)
Definition clear_step {V} `{Particle V} (virus : V) (viruses_survived : list V)
  : M World (list V) :=
  c <- doesClear (simple virus) ;;
  if c then remove virus viruses_survived else ret viruses_survived.

(** Body of the second loop of [update]:
    [try: viruses_produced.append(<reproduce call>)
     except NoChildException: pass] *)
Definition breed_step {V} (call : V -> M World V) (virus : V)
    (viruses_produced : list V) : M World (list V) :=
  try_except
    (child <- call virus ;; ret (viruses_produced ++ [child]))
    NoChildException
    (ret viruses_produced).

(** [Patient.update] *)
Definition Patient_update : M (Patient SimpleVirus * World) nat :=
  self <- get_self ;;
  let viruses_survived := getViruses self in
  viruses_survived <-
    lift (for_in (getViruses self) clear_step viruses_survived) ;;
  set_self (mkPatient viruses_survived (maxPop self)) ;;
  self <- get_self ;;
  popDensity <- true_div (getTotalPop self) (getMaxPop self) ;;
  let viruses_produced := [] in
  viruses_produced <-
    lift (for_in (getViruses self)
            (breed_step (fun virus => SimpleVirus_reproduce virus popDensity))
            viruses_produced) ;;
  set_self (mkPatient (viruses self ++ viruses_produced) (maxPop self)) ;;
  self <- get_self ;;
  ret (getTotalPop self).

(** ** Python dictionaries from drug names to booleans

    A [dict] keeps its keys in insertion order, and [reproduce] consumes one
    random draw per key in that order, so a dictionary is an association
    list; its keys are pairwise distinct ([dict_ok]). *)

Definition dict : Type := list (string * bool).

Definition keys (d : dict) : list string := map fst d.

Definition dict_ok (d : dict) : Prop := NoDup (keys d).

(** [d.get(k)]: [None] when the key is absent. *)
Fixpoint dict_get (d : dict) (k : string) : option bool :=
  match d with
  | [] => None
  | (k', v) :: d' => if String.eqb k' k then Some v else dict_get d' k
  end.

(** [d[k]]: raises [KeyError] when the key is absent. *)
Definition subscript {S} (d : dict) (k : string) : M S bool :=
  match dict_get d k with
  | Some v => ret v
  | None => raise KeyError
  end.

(** [d[k] = v]: an existing key keeps its place, a new key goes last. *)
Fixpoint dict_set (d : dict) (k : string) (v : bool) : dict :=
  match d with
  | [] => [(k, v)]
  | (k', v') :: d' =>
      if String.eqb k' k then (k', v) :: d' else (k', v') :: dict_set d' k v
  end.

(** [not x] for [x] one of [True], [False] ([Some b]) and [None]. *)
Definition py_not (x : option bool) : bool :=
  match x with
  | Some b => negb b
  | None => true
  end.

(** [x in l] for a list of strings. *)
Definition py_in (x : string) (l : list string) : bool :=
  existsb (String.eqb x) l.

(** ** class ResistantVirus(SimpleVirus) *)

Record ResistantVirus : Type := mkResistantVirus {
  base : SimpleVirus;         (* the attributes set by [super().__init__] *)
  resistances : dict;
  mutProb : Q
}.

#[export] Instance ResistantVirus_Particle : Particle ResistantVirus :=
  {| simple := base |}.

(** [ResistantVirus.__init__] *)
Definition ResistantVirus_init (maxBirthProb clearProb : Q)
    (resistances : dict) (mutProb : Q) : M World ResistantVirus :=
  b <- SimpleVirus_init maxBirthProb clearProb ;;
  ret (mkResistantVirus b resistances mutProb).

Definition getResistances (self : ResistantVirus) : dict := resistances self.
Definition getMutProb (self : ResistantVirus) : Q := mutProb self.

(** [ResistantVirus.isResistantTo] *)
Definition isResistantTo (self : ResistantVirus) (drug : string) : option bool :=
  dict_get (resistances self) drug.

(** Body of the mutation loop of [reproduce]:
    [if random.random() <= self.getMutProb():
         newResistances[drug] = not newResistances[drug]] *)
Definition mutate_step (self : ResistantVirus) (drug : string)
    (newResistances : dict) : M World dict :=
  r <- random ;;
  if Qle_bool r (getMutProb self)
  then old <- subscript newResistances drug ;;
       ret (dict_set newResistances drug (negb old))
  else ret newResistances.

(** [ResistantVirus.reproduce] *)
Definition ResistantVirus_reproduce (self : ResistantVirus) (popDensity : Q)
    (activeDrugs : list string) : M World ResistantVirus :=
  let drugsAreEffective :=
    fold_left
      (fun drugsAreEffective drug =>
         if py_not (isResistantTo self drug) then true else drugsAreEffective)
      activeDrugs false in
  if drugsAreEffective then raise NoChildException
  else
    let repProb := getMaxBirthProb (base self) * (1 - popDensity) in
    r <- random ;;
    if Qle_bool r repProb
    then
      let newResistances := getResistances self in
      newResistances <-
        for_in (keys newResistances) (mutate_step self) newResistances ;;
      ResistantVirus_init (getMaxBirthProb (base self))
        (getClearProb (base self)) newResistances (getMutProb self)
    else raise NoChildException.

(** ** class TreatedPatient(Patient) *)

Record TreatedPatient : Type := mkTreatedPatient {
  patient : Patient ResistantVirus;   (* the attributes set by [super().__init__] *)
  prescriptions : list string
}.

(** [TreatedPatient.__init__] *)
Definition TreatedPatient_init (viruses : list ResistantVirus) (maxPop : Z)
  : outcome TreatedPatient :=
  match Patient_init viruses maxPop with
  | Returned p => Returned (mkTreatedPatient p [])
  | Raised e => Raised e
  end.

Definition getPrescriptions (self : TreatedPatient) : list string :=
  prescriptions self.

(** [TreatedPatient.addPrescription] *)
Definition addPrescription (newDrug : string) : M (TreatedPatient * World) unit :=
  self <- get_self ;;
  if negb (py_in newDrug (getPrescriptions self))
  then set_self (mkTreatedPatient (patient self) (prescriptions self ++ [newDrug]))
  else ret tt.

(** [TreatedPatient.getResistPop] *)
Definition getResistPop (self : TreatedPatient) (drugResist : list string) : nat :=
  fold_left
    (fun numResistantViruses virus =>
       if (0 <? length drugResist)%nat
       then
         let virusIsResistant :=
           fold_left
             (fun virusIsResistant drug =>
                if py_not (isResistantTo virus drug) then false
                else virusIsResistant)
             drugResist true in
         if virusIsResistant then (numResistantViruses + 1)%nat
         else numResistantViruses
       else numResistantViruses)
    (getViruses (patient self)) 0%nat.

(** [TreatedPatient.update] *)
Definition TreatedPatient_update : M (TreatedPatient * World) nat :=
  self <- get_self ;;
  let viruses_survived := getViruses (patient self) in
  viruses_survived <-
    lift (for_in (getViruses (patient self)) clear_step viruses_survived) ;;
  set_self (mkTreatedPatient
              (mkPatient viruses_survived (maxPop (patient self)))
              (prescriptions self)) ;;
  self <- get_self ;;
  popDensity <-
    true_div (getTotalPop (patient self)) (getMaxPop (patient self)) ;;
  let viruses_produced := [] in
  viruses_produced <-
    lift (for_in (getViruses (patient self))
            (breed_step
               (fun virus =>
                  ResistantVirus_reproduce virus popDensity
                    (getPrescriptions self)))
            viruses_produced) ;;
  set_self (mkTreatedPatient
              (mkPatient (viruses (patient self) ++ viruses_produced)
                 (maxPop (patient self)))
              (prescriptions self)) ;;
  self <- get_self ;;
  ret (getTotalPop (patient self)).

(** * Specification-side definitions *)

(** The particles of [vs] that survive when the [k]-th particle is judged by
    draw number [i + k]: it clears iff that draw is [<=] its [clearProb]. *)
Fixpoint survivors_of {V} `{Particle V} (rnd : nat -> Q) (i : nat) (vs : list V)
  : list V :=
  match vs with
  | [] => []
  | v :: vs' =>
      if Qle_bool (rnd i) (clearProb (simple v))
      then survivors_of rnd (S i) vs'
      else v :: survivors_of rnd (S i) vs'
  end.

(** Identity determines the object: two entries of a list with the same
    identity are the same particle (a list may hold one object twice). *)
Definition identity_ok {V} `{Particle V} (vs : list V) : Prop :=
  forall x y, In x vs -> In y vs -> oid (simple x) = oid (simple y) -> x = y.

(** The reproduction phase as a relation: starting in world [w], each
    particle of the list, in order and once, makes one reproduction call;
    a call that returns contributes its child, a call that raises
    [NoChildException] contributes nothing. *)
Inductive breeds {V} (call : V -> M World V)
  : World -> list V -> list V -> World -> Prop :=
| breeds_nil : forall w, breeds call w [] [] w
| breeds_child : forall w s c w1 rest offspring w2,
    call s w = (Returned c, w1) ->
    breeds call w1 rest offspring w2 ->
    breeds call w (s :: rest) (c :: offspring) w2
| breeds_none : forall w s w1 rest offspring w2,
    call s w = (Raised NoChildException, w1) ->
    breeds call w1 rest offspring w2 ->
    breeds call w (s :: rest) offspring w2.

(** A reproduction call either returns a child or raises [NoChildException]. *)
Definition only_no_child {V} (call : V -> M World V) : Prop :=
  forall s w, (exists c w', call s w = (Returned c, w')) \/
              (exists w', call s w = (Raised NoChildException, w')).

(** The resistance map of an offspring: the [k]-th trait is negated iff draw
    number [i + k] is [<=] [mutProb]. *)
Fixpoint mutated (mutProb : Q) (rnd : nat -> Q) (i : nat) (d : dict) : dict :=
  match d with
  | [] => []
  | (k, v) :: d' =>
      (k, if Qle_bool (rnd i) mutProb then negb v else v)
        :: mutated mutProb rnd (S i) d'
  end.

(** The drug gate of [ResistantVirus.reproduce]: some active drug is one the
    particle is not resistant to. *)
Definition gate_blocks (self : ResistantVirus) (activeDrugs : list string) : bool :=
  existsb (fun drug => py_not (isResistantTo self drug)) activeDrugs.

(** The particle is known to be resistant to the drug: the stored value is
    [True] (not [False], and not the [None] of an absent key). *)
Definition resistant_to (virus : ResistantVirus) (drug : string) : bool :=
  match isResistantTo virus drug with
  | Some true => true
  | _ => false
  end.

(** Resistant to every drug of the list. *)
Definition resists_all (virus : ResistantVirus) (drugs : list string) : bool :=
  forallb (resistant_to virus) drugs.

(** The operations a driver can apply to a treated patient. *)
Inductive operation : Type :=
| OpAddPrescription (drug : string)
| OpUpdate
| OpGetResistPop (drugs : list string)
| OpGetPrescriptions
| OpGetTotalPop.

Definition apply_operation (op : operation) (st : TreatedPatient * World)
  : TreatedPatient * World :=
  match op with
  | OpAddPrescription drug => snd (addPrescription drug st)
  | OpUpdate => snd (TreatedPatient_update st)
  | OpGetResistPop _ | OpGetPrescriptions | OpGetTotalPop => st
  end.

Definition run (ops : list operation) (st : TreatedPatient * World)
  : TreatedPatient * World :=
  fold_left (fun st op => apply_operation op st) ops st.

(** No object is listed twice. *)
Fixpoint no_alias {V} `{Particle V} (vs : list V) : bool :=
  match vs with
  | [] => true
  | v :: vs' => negb (existsb (same_object v) vs') && no_alias vs'
  end.

(** What parent and child have in common. *)
Definition simple_child_of (parent child : SimpleVirus) : Prop :=
  maxBirthProb child = maxBirthProb parent /\
  clearProb child = clearProb parent.

Definition resistant_child_of (parent child : ResistantVirus) : Prop :=
  simple_child_of (base parent) (base child) /\
  mutProb child = mutProb parent /\
  keys (resistances child) = keys (resistances parent).

(** One step, as the specification describes it: clearance of each particle
    of [before] by its own draw, one density computed from the survivors,
    reproduction calls by the survivors only, and the commit. *)
Definition one_step {V} `{Particle V} (call : Q -> V -> M World V)
    (child_of : V -> V -> Prop) (before : list V) (maxPop : Z) (w : World)
    (result : outcome nat) (after : list V) (w' : World) : Prop :=
  exists survivors offspring,
    Permutation survivors (survivors_of (rnd w) (cursor w) before) /\
    (no_alias before = true ->
     survivors = survivors_of (rnd w) (cursor w) before) /\
    breeds (call (inject_Z (Z.of_nat (length survivors)) / inject_Z maxPop))
      (skip (length before) w) survivors offspring w' /\
    Forall (fun c => exists s, In s survivors /\ child_of s c) offspring /\
    (length offspring <= length survivors)%nat /\
    after = survivors ++ offspring /\
    result = Returned (length after).

(** No draw is [0.0]. *)
Definition positive_draws (w : World) : Prop := forall i, 0 < rnd w i.

(** * Concrete hosts and random outcomes used in the examples *)

Definition draws_a : nat -> Q :=
  fun i => match i with
           | 0%nat => 3 # 10
           | 1%nat => 0
           | 3%nat => 1 # 100
           | _ => 1 # 5
           end.

Definition world_a : World := mkWorld draws_a 0 100.

Definition simple_a (i : nat) : SimpleVirus := mkSimpleVirus i (1 # 2) (1 # 10).

Definition patient_a : Patient SimpleVirus :=
  mkPatient [simple_a 0; simple_a 1] 10.

Definition resistant_a (i : nat) : ResistantVirus :=
  mkResistantVirus (simple_a i) [("A"%string, true); ("B"%string, false)] (1 # 50).

Definition treated_a : TreatedPatient :=
  mkTreatedPatient (mkPatient [resistant_a 0; resistant_a 1] 10) ["A"%string].

Definition simple_b (i : nat) : SimpleVirus := mkSimpleVirus i (1 # 2) 1.

Definition patient_b : Patient SimpleVirus :=
  mkPatient [simple_b 0; simple_b 1; simple_b 2] 10.

Definition treated_b : TreatedPatient :=
  mkTreatedPatient
    (mkPatient [mkResistantVirus (simple_b 0) [("A"%string, true)] (1 # 50);
                mkResistantVirus (simple_b 1) [] (1 # 50)] 10)
    [].

(** A random source whose every outcome is [0.0], the least value
    [random.random()] can return. *)
Definition world_zero : World := mkWorld (fun _ => 0) 0 100.

Definition world_half_zero : World :=
  mkWorld (fun i => match i with 0%nat => 1 # 2 | _ => 0 end) 0 100.

Definition inert : SimpleVirus := mkSimpleVirus 0 0 0.

Definition sensitive_D : ResistantVirus :=
  mkResistantVirus (mkSimpleVirus 0 1 0) [("D"%string, false)] (1 # 50).

Definition mutable_a : ResistantVirus :=
  mkResistantVirus (mkSimpleVirus 7 1 (1 # 10))
    [("A"%string, true); ("B"%string, false)] (1 # 50).

Definition world_m : World :=
  mkWorld (fun i => match i with 1%nat => 1 # 100 | _ => 1 # 5 end) 0 100.

Definition treated_c : TreatedPatient :=
  mkTreatedPatient (mkPatient [resistant_a 0; sensitive_D; resistant_a 1] 10) [].

(** * Further definitions *)

(** ** Further definitions: several steps, identities, degenerate hosts *)

(** The identity of a particle. *)
Definition oid_of {V} `{Particle V} (v : V) : nat := oid (simple v).

(** The population is laid out as Python lays out objects: no object is
    listed twice, and every identity in use is older than the next one the
    allocator hands out. *)
Definition heap_ok {V} `{Particle V} (vs : list V) (w : World) : Prop :=
  NoDup (map oid_of vs) /\ forall v, In v vs -> (oid_of v < fresh w)%nat.

(** [n] successive calls of [update()], as in the drivers' time loops; a call
    that raises leaves the state it reached. *)
Fixpoint Patient_steps (n : nat) (st : Patient SimpleVirus * World)
  : Patient SimpleVirus * World :=
  match n with
  | O => st
  | S n' => Patient_steps n' (snd (Patient_update st))
  end.

(** Every trait negated. *)
Definition negated (d : dict) : dict := map (fun kv => (fst kv, negb (snd kv))) d.

(** A treated patient seen as a plain patient: the particles without their
    resistance attributes. *)
Definition as_patient (t : TreatedPatient) : Patient SimpleVirus :=
  mkPatient (map base (viruses (patient t))) (maxPop (patient t)).

(** What an outcome is allowed to be for [update()]. *)
Definition returned_or_zero_division {A} (r : outcome A) : Prop :=
  match r with
  | Returned _ => True
  | Raised ZeroDivisionError => True
  | Raised _ => False
  end.

(** A reproduction call creates at most one object, the child, and leaves
    the outcomes of the random source as they are. *)
Definition call_allocates {V} `{Particle V} (call : V -> M World V) : Prop :=
  forall s w,
    match call s w with
    | (Returned c, w1) =>
        oid_of c = fresh w /\ fresh w1 = S (fresh w) /\
        rnd w1 = rnd w /\ (cursor w <= cursor w1)%nat
    | (Raised _, w1) =>
        fresh w1 = fresh w /\ rnd w1 = rnd w /\ (cursor w <= cursor w1)%nat
    end.

(** Applying a function to the value an outcome returns. *)
Definition outcome_map {A B} (f : A -> B) (r : outcome A) : outcome B :=
  match r with
  | Returned a => Returned (f a)
  | Raised e => Raised e
  end.

(** ** The simulation drivers

    [simulationWithoutDrug] and [simulationWithDrug] build their hosts, run
    them and accumulate the population sizes in lists indexed by time; they
    end by handing these lists to [pylab]. The plotting library is outside
    the program: the drivers are modelled up to that hand-over and return the
    lists they pass to [pylab.plot]. Indexing a list can raise [IndexError],
    which no method of the four classes can, so the drivers run in a monad
    with one more exception. *)

Inductive driver_exn : Type :=
| CoreError (e : exn)      (* an exception raised inside a class method *)
| IndexError.

Inductive result (A : Type) : Type :=
| Done (a : A)
| Failed (e : driver_exn).

Arguments Done {A} a.
Arguments Failed {A} e.

Definition D (A : Type) : Type := World -> result A * World.

Definition dret {A} (a : A) : D A := fun w => (Done a, w).

Definition dbind {A B} (m : D A) (k : A -> D B) : D B :=
  fun w =>
    match m w with
    | (Done a, w') => k a w'
    | (Failed e, w') => (Failed e, w')
    end.

Definition dfail {A} (e : driver_exn) : D A := fun w => (Failed e, w).

Notation "x <~ m ;; k" := (dbind m (fun x => k))
  (at level 61, m at next level, right associativity) : py_scope.
Notation "' p <~ m ;; k" := (dbind m (fun x => match x with p => k end))
  (at level 61, p pattern, m at next level, right associativity) : py_scope.

(** A call of a function of the classes. *)
Definition core {A} (m : M World A) : D A :=
  fun w =>
    match m w with
    | (Returned a, w') => (Done a, w')
    | (Raised e, w') => (Failed (CoreError e), w')
    end.

(** A call of a method on the host object [self]; it gives back the value
    and the host as the method left it. *)
Definition method {H A} (m : M (H * World) A) (self : H) : D (A * H) :=
  fun w =>
    match m (self, w) with
    | (Returned a, (self', w')) => (Done (a, self'), w')
    | (Raised e, (_, w')) => (Failed (CoreError e), w')
    end.

(** [for x in xs: body] in a driver. *)
Fixpoint dfor {A L} (xs : list A) (body : A -> L -> D L) (acc : L) : D L :=
  match xs with
  | [] => dret acc
  | x :: xs' => acc' <~ body x acc ;; dfor xs' body acc'
  end.

(** [range(n)]: empty when [n <= 0]. *)
Definition range (n : Z) : list nat := seq 0 (Z.to_nat n).

(** [l[i]] for an index [i >= 0]. *)
Definition get_at (l : list Q) (i : nat) : D Q :=
  match nth_error l i with
  | Some x => dret x
  | None => dfail IndexError
  end.

(** [l[i] = x] for an index [i >= 0]. *)
Definition set_at (l : list Q) (i : nat) (x : Q) : D (list Q) :=
  if (i <? length l)%nat
  then dret (firstn i l ++ x :: skipn (S i) l)
  else dfail IndexError.

(** [x / n] for an integer [n]. *)
Definition div_by (x : Q) (n : Z) : D Q :=
  if (n =? 0)%Z then dfail (CoreError ZeroDivisionError)
  else dret (x / inject_Z n).

Definition numTimeSteps : Z := 300.
Definition drugAdminTime : nat := 150.
Definition drugToAdmin : string := "oseltamivir".

(** Body of the loops that fill a list with [numTimeSteps] zeros:
    [virusPop.append(0)]. *)
Definition append_zero (time : nat) (virusPop : list Q) : D (list Q) :=
  dret (virusPop ++ [0]).

(** [l[i] += n] for a population size [n]: the item is read first, then the
    right-hand side is evaluated by [rhs], then the sum is stored. *)
Definition add_at {H} (l : list Q) (i : nat) (rhs : D (nat * H))
  : D (list Q * H) :=
  old <~ get_at l i ;;
  ' (n, h) <~ rhs ;;
  l <~ set_at l i (old + inject_Z (Z.of_nat n)) ;;
  dret (l, h).

(** [l[i] /= numTrials] *)
Definition divide_at (numTrials : Z) (l : list Q) (i : nat) : D (list Q) :=
  old <~ get_at l i ;;
  q <~ div_by old numTrials ;;
  set_at l i q.

(** Body of the loop that creates the initial particles of a trial:
    [sim_viruses.append(<new virus>)]. *)
Definition create_step {V} (new : M World V) (virus : nat) (sim_viruses : list V)
  : D (list V) :=
  v <~ core new ;;
  dret (sim_viruses ++ [v]).

(** Body of the time loop of [simulationWithoutDrug]:
    [virusPop[time] += sim_patient.update()]. *)
Definition time_step_without_drug (time : nat)
    (state : list Q * Patient SimpleVirus)
  : D (list Q * Patient SimpleVirus) :=
  let '(virusPop, sim_patient) := state in
  add_at virusPop time (method Patient_update sim_patient).

(** Body of the trial loop of [simulationWithoutDrug]. *)
Definition trial_without_drug (numViruses maxPop : Z)
    (maxBirthProb clearProb : Q) (trial : nat) (virusPop : list Q)
  : D (list Q) :=
  let sim_viruses := [] in
  sim_viruses <~
    dfor (range numViruses)
      (create_step (SimpleVirus_init maxBirthProb clearProb)) sim_viruses ;;
  sim_patient <~ core (fun w => (Patient_init sim_viruses maxPop, w)) ;;
  state <~ dfor (range numTimeSteps) time_step_without_drug
             (virusPop, sim_patient) ;;
  dret (fst state).

(** [simulationWithoutDrug], up to the calls of [pylab]; the result is the
    list given to [pylab.plot]. The list [timeSteps], which the source fills
    and never reads, is left out. *)
Definition simulationWithoutDrug (numViruses maxPop : Z)
    (maxBirthProb clearProb : Q) (numTrials : Z) : D (list Q) :=
  let virusPop := [] in
  virusPop <~ dfor (range numTimeSteps) append_zero virusPop ;;
  virusPop <~
    dfor (range numTrials)
      (trial_without_drug numViruses maxPop maxBirthProb clearProb) virusPop ;;
  virusPop <~
    dfor (range numTimeSteps)
      (fun time virusPop => divide_at numTrials virusPop time) virusPop ;;
  dret virusPop.

(** Body of the time loop of [simulationWithDrug]:
    [if time == drugAdminTime: sim_patient.addPrescription(drugToAdmin)
     totalVirusPop[time] += sim_patient.update()
     resistantVirusPop[time] += sim_patient.getResistPop(resistances)].
    The dictionary [resistances] is the argument of [getResistPop], which
    takes its length and iterates over its keys. *)
Definition time_step_with_drug (resistances : dict) (time : nat)
    (state : list Q * list Q * TreatedPatient)
  : D (list Q * list Q * TreatedPatient) :=
  let '(totalVirusPop, resistantVirusPop, sim_patient) := state in
  sim_patient <~
    (if (time =? drugAdminTime)%nat
     then ' (_, sim_patient) <~
            method (addPrescription drugToAdmin) sim_patient ;;
          dret sim_patient
     else dret sim_patient) ;;
  ' (totalVirusPop, sim_patient) <~
    add_at totalVirusPop time (method TreatedPatient_update sim_patient) ;;
  ' (resistantVirusPop, sim_patient) <~
    add_at resistantVirusPop time
      (dret (getResistPop sim_patient (keys resistances), sim_patient)) ;;
  dret (totalVirusPop, resistantVirusPop, sim_patient).

(** Body of the trial loop of [simulationWithDrug]. *)
Definition trial_with_drug (numViruses maxPop : Z)
    (maxBirthProb clearProb : Q) (resistances : dict) (mutProb : Q)
    (trial : nat) (pops : list Q * list Q) : D (list Q * list Q) :=
  let '(totalVirusPop, resistantVirusPop) := pops in
  let sim_viruses := [] in
  sim_viruses <~
    dfor (range numViruses)
      (create_step (ResistantVirus_init maxBirthProb clearProb
                      resistances mutProb))
      sim_viruses ;;
  sim_patient <~ core (fun w => (TreatedPatient_init sim_viruses maxPop, w)) ;;
  state <~ dfor (range numTimeSteps) (time_step_with_drug resistances)
             (totalVirusPop, resistantVirusPop, sim_patient) ;;
  dret (fst (fst state), snd (fst state)).

(** Body of the averaging loop of [simulationWithDrug]. *)
Definition average_step_with_drug (numTrials : Z) (time : nat)
    (pops : list Q * list Q) : D (list Q * list Q) :=
  let '(totalVirusPop, resistantVirusPop) := pops in
  totalVirusPop <~ divide_at numTrials totalVirusPop time ;;
  resistantVirusPop <~ divide_at numTrials resistantVirusPop time ;;
  dret (totalVirusPop, resistantVirusPop).

(** [simulationWithDrug], up to the calls of [pylab]; the result is the pair
    of lists given to [pylab.plot]: total and resistant population. *)
Definition simulationWithDrug (numViruses maxPop : Z)
    (maxBirthProb clearProb : Q) (resistances : dict) (mutProb : Q)
    (numTrials : Z) : D (list Q * list Q) :=
  let totalVirusPop := [] in
  let resistantVirusPop := [] in
  pops <~
    dfor (range numTimeSteps)
      (fun time '(totalVirusPop, resistantVirusPop) =>
         totalVirusPop <~ append_zero time totalVirusPop ;;
         resistantVirusPop <~ append_zero time resistantVirusPop ;;
         dret (totalVirusPop, resistantVirusPop))
      (totalVirusPop, resistantVirusPop) ;;
  pops <~
    dfor (range numTrials)
      (trial_with_drug numViruses maxPop maxBirthProb clearProb
         resistances mutProb) pops ;;
  pops <~ dfor (range numTimeSteps) (average_step_with_drug numTrials) pops ;;
  dret pops.

(** [l] with [x] at index [i]. *)
Definition updated (l : list Q) (i : nat) (x : Q) : list Q :=
  firstn i l ++ x :: skipn (S i) l.

(** The population lists of a driver before the first trial. *)
Definition zeros : list Q := repeat 0 (Z.to_nat numTimeSteps).

(** ** Further concrete inputs *)

(** A random source whose every outcome is [0.2]. *)
Definition world_fifth : World := mkWorld (fun _ => 1 # 5) 0 100.

(** Two particles in a host of capacity two. *)
Definition patient_full : Patient SimpleVirus :=
  mkPatient [simple_a 0; simple_a 1] 2.

Definition treated_full : TreatedPatient :=
  mkTreatedPatient (mkPatient [resistant_a 0; resistant_a 1] 2) [].

Definition mutant_one : ResistantVirus :=
  mkResistantVirus (mkSimpleVirus 7 1 (1 # 10))
    [("A"%string, true); ("B"%string, false)] 1.

Definition steady : ResistantVirus :=
  mkResistantVirus (mkSimpleVirus 7 1 (1 # 10))
    [("A"%string, true); ("B"%string, false)] 0.

Definition sensitive (i : nat) : ResistantVirus :=
  mkResistantVirus (mkSimpleVirus i 1 (1 # 10)) [("D"%string, false)] (1 # 50).

Definition treated_sensitive : TreatedPatient :=
  mkTreatedPatient (mkPatient [sensitive 0; sensitive 1] 10) ["D"%string].

Definition patient_inert : Patient SimpleVirus :=
  mkPatient [inert; mkSimpleVirus 1 0 0] 10.

Definition plain (i : nat) : ResistantVirus :=
  mkResistantVirus (simple_a i) [] (1 # 50).

Definition treated_plain : TreatedPatient :=
  mkTreatedPatient (mkPatient [plain 0; plain 1] 10) [].

(** * Properties *)

(** ** The world *)

Lemma skip_0 (w : World) : skip 0 w = w.
Proof. destruct w; reflexivity. Qed.

Lemma skip_S (n : nat) (w : World) :
  skip n (mkWorld (rnd w) (S (cursor w)) (fresh w)) = skip (S n) w.
Proof. unfold skip; simpl. f_equal. lia. Qed.

Lemma skip_skip (n m : nat) (w : World) : skip n (skip m w) = skip (n + m) w.
Proof. unfold skip; simpl. f_equal. lia. Qed.

(** ** [list.remove] *)

Section Lists.
Context {V : Type} `{Particle V}.

Lemma same_object_true (x y : V) :
  same_object x y = true <-> oid (simple x) = oid (simple y).
Proof. unfold same_object. apply Nat.eqb_eq. Qed.

Lemma identity_ok_tail (x : V) (l : list V) :
  identity_ok (x :: l) -> identity_ok l.
Proof. intros ok a b Ha Hb. apply ok; right; assumption. Qed.

(** Removing a particle that is in the list succeeds and takes out one
    occurrence of that very particle. *)
Lemma list_remove_present (x : V) (l : list V) :
  identity_ok l -> In x l ->
  exists l', list_remove x l = Some l' /\ Permutation l (x :: l').
Proof.
  induction l as [|y l IH]; intros ok Hin; [destruct Hin|].
  simpl. destruct (same_object y x) eqn:E.
  - exists l. split; [reflexivity|].
    apply same_object_true in E.
    assert (y = x) by (apply ok; simpl; auto). subst. reflexivity.
  - destruct Hin as [->|Hin].
    + unfold same_object in E. rewrite Nat.eqb_refl in E. discriminate.
    + destruct (IH (identity_ok_tail ok) Hin) as (l' & -> & P).
      exists (y :: l'). split; [reflexivity|].
      rewrite P. apply perm_swap.
Qed.

(** The clearance loop of [update]: it never raises, consumes one draw per
    particle, and leaves the particles that did not clear. [kept] are the
    particles already judged and kept. *)
Lemma clearance_loop (vs : list V) :
  forall (acc kept : list V) (w : World),
    identity_ok acc ->
    Permutation acc (kept ++ vs) ->
    exists survivors,
      for_in vs clear_step acc w = (Returned survivors, skip (length vs) w) /\
      Permutation survivors (kept ++ survivors_of (rnd w) (cursor w) vs).
Proof.
  induction vs as [|v vs IH]; intros acc kept w ok P.
  - exists acc. simpl. rewrite skip_0. split; [reflexivity|assumption].
  - simpl. unfold bind at 1. unfold clear_step at 1.
    unfold bind at 1. unfold doesClear, bind, random, getClearProb. simpl.
    destruct (Qle_bool (rnd w (cursor w)) (clearProb (simple v))) eqn:E; simpl.
    + assert (Hin : In v acc).
      { eapply Permutation_in; [apply Permutation_sym, P|].
        apply in_or_app; right; left; reflexivity. }
      destruct (list_remove_present v ok Hin) as (acc' & R & P').
      unfold remove. rewrite R. unfold ret.
      assert (P2 : Permutation acc' (kept ++ vs)).
      { apply Permutation_cons_inv with (a := v).
        rewrite <- P'. rewrite P. symmetry. apply Permutation_middle. }
      assert (ok' : identity_ok acc').
      { intros a b Ha Hb. apply ok;
          (eapply Permutation_in; [apply Permutation_sym, P'|right; assumption]). }
      destruct (IH acc' kept (mkWorld (rnd w) (S (cursor w)) (fresh w)) ok' P2)
        as (s & Hs & Ps).
      exists s. rewrite Hs, skip_S. split; [reflexivity|exact Ps].
    + assert (P2 : Permutation acc ((kept ++ [v]) ++ vs)).
      { rewrite <- app_assoc. exact P. }
      destruct (IH acc (kept ++ [v]) (mkWorld (rnd w) (S (cursor w)) (fresh w)) ok P2)
        as (s & Hs & Ps).
      exists s. rewrite Hs, skip_S. split; [reflexivity|].
      rewrite <- app_assoc in Ps. exact Ps.
Qed.

(** When no object is listed twice, [remove] takes the particle out of its
    own place. *)
Lemma list_remove_middle (kept rest : list V) (v : V) :
  (forall k, In k kept -> same_object k v = false) ->
  list_remove v (kept ++ v :: rest) = Some (kept ++ rest).
Proof.
  induction kept as [|k kept IH]; intros D; simpl.
  - unfold same_object. rewrite Nat.eqb_refl. reflexivity.
  - rewrite (D k (or_introl eq_refl)), IH; [reflexivity|].
    intros k' Hk'. apply D. right; assumption.
Qed.

Lemma no_alias_NoDup (vs : list V) :
  no_alias vs = true -> NoDup (map (fun v => oid (simple v)) vs).
Proof.
  induction vs as [|v vs IH]; simpl; intros N; [constructor|].
  apply andb_true_iff in N. destruct N as [N1 N2].
  apply negb_true_iff in N1. constructor; [|apply IH; assumption].
  intros Hin. apply in_map_iff in Hin. destruct Hin as (z & Ez & Hz).
  assert (existsb (same_object v) vs = true); [|congruence].
  apply existsb_exists. exists z. split; [assumption|].
  apply same_object_true. symmetry. assumption.
Qed.

(** The clearance loop on a list without aliases keeps the survivors in
    their order. *)
Lemma clearance_loop_exact (vs : list V) :
  forall (kept : list V) (w : World),
    NoDup (map (fun v => oid (simple v)) (kept ++ vs)) ->
    for_in vs clear_step (kept ++ vs) w
    = (Returned (kept ++ survivors_of (rnd w) (cursor w) vs),
       skip (length vs) w).
Proof.
  induction vs as [|v vs IH]; intros kept w N.
  - simpl. rewrite skip_0. reflexivity.
  - simpl. unfold bind at 1. unfold clear_step at 1.
    unfold bind at 1. unfold doesClear, bind, random, getClearProb. simpl.
    destruct (Qle_bool (rnd w (cursor w)) (clearProb (simple v))) eqn:E; simpl.
    + rewrite map_app in N. simpl in N.
      pose proof (NoDup_remove_1 _ _ _ N) as N1.
      pose proof (NoDup_remove_2 _ _ _ N) as N2.
      unfold remove. rewrite list_remove_middle.
      * unfold ret. rewrite <- map_app in N1. rewrite (IH kept _ N1), skip_S.
        reflexivity.
      * intros k Hk. unfold same_object. apply Nat.eqb_neq. intros Ek.
        apply N2. apply in_or_app. left. rewrite <- Ek.
        apply in_map_iff. exists k. split; [reflexivity|assumption].
    + assert (N' : NoDup (map (fun v => oid (simple v)) ((kept ++ [v]) ++ vs))).
      { rewrite <- app_assoc. exact N. }
      pose proof (IH (kept ++ [v]) (mkWorld (rnd w) (S (cursor w)) (fresh w)) N')
        as E'.
      rewrite <- !app_assoc in E'. simpl in E'. rewrite E', skip_S. reflexivity.
Qed.

(** The reproduction loop of [update]: it never raises and appends to the
    staging list exactly the children bred by the particles it visits. *)
Lemma breeding_loop (call : V -> M World V) (vs : list V) :
  only_no_child call ->
  forall (acc : list V) (w : World),
    exists offspring w',
      for_in vs (breed_step call) acc w = (Returned (acc ++ offspring), w') /\
      breeds call w vs offspring w'.
Proof.
  intros Hcall. induction vs as [|v vs IH]; intros acc w.
  - exists [], w. simpl. rewrite app_nil_r. split; [reflexivity|constructor].
  - simpl. unfold bind at 1. unfold breed_step at 1. unfold try_except, bind.
    destruct (Hcall v w) as [(c & w1 & E)|(w1 & E)]; rewrite E; simpl.
    + destruct (IH (acc ++ [c]) w1) as (o & w2 & Ho & Bo).
      exists (c :: o), w2. rewrite Ho, <- app_assoc. simpl.
      split; [reflexivity|]. econstructor; eauto.
    + destruct (IH acc w1) as (o & w2 & Ho & Bo).
      exists o, w2. rewrite Ho.
      split; [reflexivity|]. eapply breeds_none; eauto.
Qed.

(** Offspring come from the particles that bred, one child at most each. *)
Lemma breeds_parents (call : V -> M World V) w vs offspring w' :
  breeds call w vs offspring w' ->
  (length offspring <= length vs)%nat /\
  Forall (fun c => exists s w1 w2, In s vs /\ call s w1 = (Returned c, w2))
         offspring.
Proof.
  induction 1 as [w|w s c w1 rest o w2 E B [IHl IHf]|w s w1 rest o w2 E B [IHl IHf]].
  - split; [reflexivity|constructor].
  - split; [simpl; lia|]. constructor.
    + exists s, w, w1. split; [left; reflexivity|assumption].
    + eapply Forall_impl; [|exact IHf].
      intros a (s' & wa & wb & Hin & Hc). exists s', wa, wb. split; [right|]; assumption.
  - split; [simpl; lia|].
    eapply Forall_impl; [|exact IHf].
    intros a (s' & wa & wb & Hin & Hc). exists s', wa, wb. split; [right|]; assumption.
Qed.
End Lists.

(** ** Dictionaries *)

Lemma keys_app (d1 d2 : dict) : keys (d1 ++ d2) = keys d1 ++ keys d2.
Proof. apply map_app. Qed.

Lemma dict_get_present (d : dict) (k : string) :
  In k (keys d) -> exists v, dict_get d k = Some v.
Proof.
  induction d as [|[k' v'] d IH]; simpl; [intros []|].
  intros [->|Hin].
  - rewrite String.eqb_refl. eauto.
  - destruct (String.eqb k' k); eauto.
Qed.

Lemma dict_get_absent (d : dict) (k : string) :
  ~ In k (keys d) -> dict_get d k = None.
Proof.
  induction d as [|[k' v'] d IH]; simpl; [reflexivity|].
  intros Hn. destruct (String.eqb_spec k' k) as [->|_].
  - exfalso. apply Hn. left; reflexivity.
  - apply IH. intros Hin. apply Hn. right; assumption.
Qed.

Lemma keys_dict_set (d : dict) (k : string) (v : bool) :
  In k (keys d) -> keys (dict_set d k v) = keys d.
Proof.
  induction d as [|[k' v'] d IH]; simpl; [intros []|].
  intros Hin. destruct (String.eqb_spec k' k) as [->|Hne]; simpl.
  - reflexivity.
  - f_equal. apply IH. destruct Hin as [E|Hin]; [contradiction|assumption].
Qed.

Lemma dict_get_middle (d1 d2 : dict) (k : string) (v : bool) :
  ~ In k (keys d1) -> dict_get (d1 ++ (k, v) :: d2) k = Some v.
Proof.
  induction d1 as [|[k' v'] d1 IH]; simpl; intros Hn.
  - rewrite String.eqb_refl. reflexivity.
  - destruct (String.eqb_spec k' k) as [->|_].
    + exfalso. apply Hn. left; reflexivity.
    + apply IH. intros Hin. apply Hn. right; assumption.
Qed.

Lemma dict_set_middle (d1 d2 : dict) (k : string) (v v' : bool) :
  ~ In k (keys d1) ->
  dict_set (d1 ++ (k, v) :: d2) k v' = d1 ++ (k, v') :: d2.
Proof.
  induction d1 as [|[k1 v1] d1 IH]; simpl; intros Hn.
  - rewrite String.eqb_refl. reflexivity.
  - destruct (String.eqb_spec k1 k) as [->|_].
    + exfalso. apply Hn. left; reflexivity.
    + f_equal. apply IH. intros Hin. apply Hn. right; assumption.
Qed.

Lemma keys_mutated (p : Q) (rnd : nat -> Q) (d : dict) :
  forall i, keys (mutated p rnd i d) = keys d.
Proof.
  induction d as [|[k v] d IH]; intros i; simpl; [reflexivity|].
  f_equal. apply IH.
Qed.

(** ** [ResistantVirus.reproduce] *)

Section Reproduce.
Variable self : ResistantVirus.

(** The gate loop computes [gate_blocks]. *)
Lemma gate_loop (activeDrugs : list string) (b : bool) :
  fold_left
    (fun drugsAreEffective drug =>
       if py_not (isResistantTo self drug) then true else drugsAreEffective)
    activeDrugs b
  = b || gate_blocks self activeDrugs.
Proof.
  revert b. induction activeDrugs as [|d ds IH]; intros b; simpl.
  - rewrite orb_false_r. reflexivity.
  - rewrite IH. unfold gate_blocks.
    destruct (py_not (isResistantTo self d)); simpl.
    + rewrite orb_true_r. reflexivity.
    + reflexivity.
Qed.

(** The mutation loop never raises, consumes one draw per key and keeps
    the key list. *)
Lemma mutation_loop_keys (ks : list string) :
  forall (d : dict) (w : World),
    incl ks (keys d) ->
    exists d',
      for_in ks (mutate_step self) d w = (Returned d', skip (length ks) w) /\
      keys d' = keys d.
Proof.
  induction ks as [|k ks IH]; intros d w Hin.
  - exists d. simpl. rewrite skip_0. split; reflexivity.
  - assert (Hk : In k (keys d)) by (apply Hin; left; reflexivity).
    assert (Hks : incl ks (keys d)) by (intros a Ha; apply Hin; right; exact Ha).
    simpl. unfold bind at 1. unfold mutate_step at 1.
    unfold bind at 1. unfold random. simpl.
    destruct (Qle_bool (rnd w (cursor w)) (getMutProb self)).
    + unfold bind, subscript.
      destruct (dict_get_present d k Hk) as (v & ->). simpl.
      rewrite <- (keys_dict_set d k (negb v) Hk) in Hks.
      destruct (IH _ (mkWorld (rnd w) (S (cursor w)) (fresh w)) Hks) as (d' & E & K).
      exists d'. rewrite E, skip_S. split; [reflexivity|].
      rewrite K. apply keys_dict_set, Hk.
    + simpl.
      destruct (IH d (mkWorld (rnd w) (S (cursor w)) (fresh w)) Hks) as (d' & E & K).
      exists d'. rewrite E, skip_S. split; [reflexivity|exact K].
Qed.

(** On a well-formed dictionary the mutation loop flips each trait by its
    own draw. [done] is the part of the dictionary already visited. *)
Lemma mutation_loop (todo : dict) :
  forall (done : dict) (w : World),
    dict_ok (done ++ todo) ->
    for_in (keys todo) (mutate_step self) (done ++ todo) w
    = (Returned (done ++ mutated (mutProb self) (rnd w) (cursor w) todo),
       skip (length todo) w).
Proof.
  induction todo as [|[k v] todo IH]; intros done w ok.
  - simpl. rewrite skip_0. reflexivity.
  - assert (Hk : ~ In k (keys done)).
    { unfold dict_ok in ok. rewrite keys_app in ok. simpl in ok.
      apply NoDup_remove_2 in ok. intros Hin. apply ok.
      apply in_or_app; left; exact Hin. }
    assert (ok' : forall v', dict_ok ((done ++ [(k, v')]) ++ todo)).
    { intros v'. unfold dict_ok in *. rewrite <- app_assoc.
      rewrite keys_app in *. exact ok. }
    simpl. unfold bind at 1. unfold mutate_step at 1.
    unfold bind at 1. unfold random, getMutProb. simpl.
    destruct (Qle_bool (rnd w (cursor w)) (mutProb self)).
    + unfold bind, subscript. rewrite dict_get_middle by exact Hk. simpl.
      rewrite dict_set_middle by exact Hk.
      specialize (IH (done ++ [(k, negb v)])
                     (mkWorld (rnd w) (S (cursor w)) (fresh w)) (ok' _)).
      rewrite <- !app_assoc in IH. simpl in IH. rewrite IH, skip_S. reflexivity.
    + simpl.
      specialize (IH (done ++ [(k, v)])
                     (mkWorld (rnd w) (S (cursor w)) (fresh w)) (ok' _)).
      rewrite <- !app_assoc in IH. simpl in IH. rewrite IH, skip_S. reflexivity.
Qed.

Variable popDensity : Q.
Variable activeDrugs : list string.

(** A blocked gate raises at once: no draw is consumed. *)
Lemma reproduce_blocked (w : World) :
  gate_blocks self activeDrugs = true ->
  ResistantVirus_reproduce self popDensity activeDrugs w
  = (Raised NoChildException, w).
Proof.
  intros G. unfold ResistantVirus_reproduce. rewrite gate_loop, G. reflexivity.
Qed.

(** An open gate and an unlucky draw. *)
Lemma reproduce_unlucky (w : World) :
  gate_blocks self activeDrugs = false ->
  Qle_bool (rnd w (cursor w)) (maxBirthProb (base self) * (1 - popDensity)) = false ->
  ResistantVirus_reproduce self popDensity activeDrugs w
  = (Raised NoChildException, skip 1 w).
Proof.
  intros G L. unfold ResistantVirus_reproduce. rewrite gate_loop, G. simpl.
  unfold bind, random, getMaxBirthProb. simpl. rewrite L. reflexivity.
Qed.

(** An open gate and a lucky draw: a child is returned. *)
Lemma reproduce_lucky (w : World) :
  gate_blocks self activeDrugs = false ->
  Qle_bool (rnd w (cursor w)) (maxBirthProb (base self) * (1 - popDensity)) = true ->
  exists d',
    ResistantVirus_reproduce self popDensity activeDrugs w
    = (Returned (mkResistantVirus
                   (mkSimpleVirus (fresh w) (maxBirthProb (base self))
                      (clearProb (base self)))
                   d' (mutProb self)),
       mkWorld (rnd w) (S (length (resistances self)) + cursor w) (S (fresh w)))
    /\ keys d' = keys (resistances self)
    /\ (dict_ok (resistances self) ->
        d' = mutated (mutProb self) (rnd w) (S (cursor w)) (resistances self)).
Proof.
  intros G L. unfold ResistantVirus_reproduce. rewrite gate_loop, G. simpl.
  unfold bind at 1. unfold random at 1. unfold getMaxBirthProb. simpl. rewrite L.
  unfold getResistances.
  destruct (@mutation_loop_keys (keys (resistances self)) (resistances self)
              (mkWorld (rnd w) (S (cursor w)) (fresh w)) (incl_refl _))
    as (d' & E & K).
  exists d'. unfold bind at 1. rewrite E.
  split; [|split; [exact K|]].
  - unfold ResistantVirus_init, SimpleVirus_init, bind, new_object, ret,
      getClearProb, getMutProb, skip. simpl.
    unfold keys. rewrite length_map. do 2 f_equal. f_equal. lia.
  - intros ok.
    pose proof (@mutation_loop (resistances self) []
                  (mkWorld (rnd w) (S (cursor w)) (fresh w)) ok) as E'.
    simpl in E'. rewrite E' in E. congruence.
Qed.

End Reproduce.

Lemma reproduce_only_no_child (popDensity : Q) (activeDrugs : list string) :
  only_no_child (fun virus => ResistantVirus_reproduce virus popDensity activeDrugs).
Proof.
  intros s w.
  destruct (gate_blocks s activeDrugs) eqn:G.
  - right. eexists. apply reproduce_blocked; assumption.
  - destruct (Qle_bool (rnd w (cursor w))
                (maxBirthProb (base s) * (1 - popDensity))) eqn:L.
    + left. destruct (@reproduce_lucky s popDensity activeDrugs w G L) as (d' & E & _).
      eauto.
    + right. eexists. apply reproduce_unlucky; assumption.
Qed.

(** ** [SimpleVirus.reproduce] *)

Lemma SimpleVirus_reproduce_eq (self : SimpleVirus) (popDensity : Q) (w : World) :
  SimpleVirus_reproduce self popDensity w =
  if Qle_bool (rnd w (cursor w)) (maxBirthProb self * (1 - popDensity))
  then (Returned (mkSimpleVirus (fresh w) (maxBirthProb self) (clearProb self)),
        mkWorld (rnd w) (S (cursor w)) (S (fresh w)))
  else (Raised NoChildException, skip 1 w).
Proof.
  unfold SimpleVirus_reproduce, bind, random, getMaxBirthProb. simpl.
  destruct (Qle_bool _ _); reflexivity.
Qed.

Lemma SimpleVirus_reproduce_only_no_child (popDensity : Q) :
  only_no_child (fun virus => SimpleVirus_reproduce virus popDensity).
Proof.
  intros s w. rewrite SimpleVirus_reproduce_eq.
  destruct (Qle_bool _ _); [left|right]; eauto.
Qed.

(** ** One time step *)

Lemma simple_children (popDensity : Q) (vs offspring : list SimpleVirus) w w' :
  breeds (fun v => SimpleVirus_reproduce v popDensity) w vs offspring w' ->
  Forall (fun c => exists s, In s vs /\ simple_child_of s c) offspring.
Proof.
  intros B. apply breeds_parents in B. destruct B as [_ F].
  eapply Forall_impl; [|exact F].
  intros c (s & w1 & w2 & Hin & E). exists s. split; [assumption|].
  rewrite SimpleVirus_reproduce_eq in E.
  destruct (Qle_bool _ _); inversion E; subst. split; reflexivity.
Qed.

Lemma resistant_children (popDensity : Q) (drugs : list string)
    (vs offspring : list ResistantVirus) w w' :
  breeds (fun v => ResistantVirus_reproduce v popDensity drugs) w vs offspring w' ->
  Forall (fun c => exists s, In s vs /\ resistant_child_of s c) offspring.
Proof.
  intros B. apply breeds_parents in B. destruct B as [_ F].
  eapply Forall_impl; [|exact F].
  intros c (s & w1 & w2 & Hin & E). exists s. split; [assumption|].
  destruct (gate_blocks s drugs) eqn:G.
  - rewrite reproduce_blocked in E by assumption. discriminate.
  - destruct (Qle_bool (rnd w1 (cursor w1))
                (maxBirthProb (base s) * (1 - popDensity))) eqn:L.
    + destruct (@reproduce_lucky s popDensity drugs w1 G L) as (d' & E' & K & _).
      rewrite E' in E. inversion E; subst.
      repeat split; simpl; auto.
    + rewrite reproduce_unlucky in E by assumption. discriminate.
Qed.

(** [Patient.update] on a host with [maxPop <> 0]. *)
Lemma Patient_update_step (self : Patient SimpleVirus) (w : World) :
  maxPop self <> 0%Z ->
  identity_ok (viruses self) ->
  exists after w',
    Patient_update (self, w)
    = (Returned (length after), (mkPatient after (maxPop self), w')) /\
    one_step (fun popDensity virus => SimpleVirus_reproduce virus popDensity)
      simple_child_of (viruses self) (maxPop self) w
      (Returned (length after)) after w'.
Proof.
  intros Hmp ok.
  destruct (@clearance_loop _ _ (viruses self) (viruses self) [] w ok
              (Permutation_refl _)) as (srv & Es & Ps).
  set (pd := inject_Z (Z.of_nat (length srv)) / inject_Z (maxPop self)).
  destruct (@breeding_loop _ (fun v => SimpleVirus_reproduce v pd) srv
              (SimpleVirus_reproduce_only_no_child pd) [] (skip (length (viruses self)) w))
    as (off & w' & Eo & Bo).
  exists (srv ++ off), w'. split.
  - unfold Patient_update, bind, get_self, set_self, lift, true_div, getViruses,
      getTotalPop, getMaxPop, ret, raise. simpl.
    rewrite Es. simpl.
    destruct (Z.eqb_spec (maxPop self) 0) as [E0|_]; [contradiction|].
    fold pd. rewrite Eo. reflexivity.
  - exists srv, off. simpl in Ps.
    pose proof (breeds_parents Bo) as [Hlen _].
    split; [exact Ps|]. split.
    { intros N. apply no_alias_NoDup in N.
      pose proof (@clearance_loop_exact _ _ (viruses self) [] w N) as Ex.
      simpl in Ex. rewrite Ex in Es. congruence. }
    repeat split; auto. eapply simple_children; eauto.
Qed.

(** [TreatedPatient.update] on a host with [maxPop <> 0]. *)
Lemma TreatedPatient_update_step (self : TreatedPatient) (w : World) :
  maxPop (patient self) <> 0%Z ->
  identity_ok (viruses (patient self)) ->
  exists after w',
    TreatedPatient_update (self, w)
    = (Returned (length after),
       (mkTreatedPatient (mkPatient after (maxPop (patient self)))
          (prescriptions self), w')) /\
    one_step (fun popDensity virus =>
                ResistantVirus_reproduce virus popDensity (prescriptions self))
      resistant_child_of (viruses (patient self)) (maxPop (patient self)) w
      (Returned (length after)) after w'.
Proof.
  intros Hmp ok.
  destruct (@clearance_loop _ _ (viruses (patient self)) (viruses (patient self))
              [] w ok (Permutation_refl _)) as (srv & Es & Ps).
  set (pd := inject_Z (Z.of_nat (length srv)) / inject_Z (maxPop (patient self))).
  destruct (@breeding_loop _
              (fun v => ResistantVirus_reproduce v pd (prescriptions self)) srv
              (reproduce_only_no_child pd (prescriptions self)) []
              (skip (length (viruses (patient self))) w))
    as (off & w' & Eo & Bo).
  exists (srv ++ off), w'. split.
  - unfold TreatedPatient_update, bind, get_self, set_self, lift, true_div,
      getViruses, getTotalPop, getMaxPop, getPrescriptions, ret, raise. simpl.
    rewrite Es. simpl.
    destruct (Z.eqb_spec (maxPop (patient self)) 0) as [E0|_]; [contradiction|].
    fold pd. rewrite Eo. reflexivity.
  - exists srv, off. simpl in Ps.
    pose proof (breeds_parents Bo) as [Hlen _].
    split; [exact Ps|]. split.
    { intros N. apply no_alias_NoDup in N.
      pose proof (@clearance_loop_exact _ _ (viruses (patient self)) [] w N) as Ex.
      simpl in Ex. rewrite Ex in Es. congruence. }
    repeat split; auto. eapply resistant_children; eauto.
Qed.

(** With [maxPop = 0] the density computation raises, after the clearance
    phase has replaced the population by the survivors. *)
Lemma Patient_update_zero (self : Patient SimpleVirus) (w : World) :
  maxPop self = 0%Z ->
  identity_ok (viruses self) ->
  exists survivors,
    Patient_update (self, w)
    = (Raised ZeroDivisionError,
       (mkPatient survivors 0, skip (length (viruses self)) w)) /\
    Permutation survivors (survivors_of (rnd w) (cursor w) (viruses self)).
Proof.
  intros Hmp ok.
  destruct (@clearance_loop _ _ (viruses self) (viruses self) [] w ok
              (Permutation_refl _)) as (srv & Es & Ps).
  exists srv. split; [|exact Ps].
  unfold Patient_update, bind, get_self, set_self, lift, true_div, getViruses,
    getTotalPop, getMaxPop, ret, raise. simpl.
  rewrite Es, Hmp. reflexivity.
Qed.

Lemma TreatedPatient_update_zero (self : TreatedPatient) (w : World) :
  maxPop (patient self) = 0%Z ->
  identity_ok (viruses (patient self)) ->
  exists survivors,
    TreatedPatient_update (self, w)
    = (Raised ZeroDivisionError,
       (mkTreatedPatient (mkPatient survivors 0) (prescriptions self),
        skip (length (viruses (patient self))) w)) /\
    Permutation survivors
      (survivors_of (rnd w) (cursor w) (viruses (patient self))).
Proof.
  intros Hmp ok.
  destruct (@clearance_loop _ _ (viruses (patient self)) (viruses (patient self))
              [] w ok (Permutation_refl _)) as (srv & Es & Ps).
  exists srv. split; [|exact Ps].
  unfold TreatedPatient_update, bind, get_self, set_self, lift, true_div,
    getViruses, getTotalPop, getMaxPop, ret, raise. simpl.
  rewrite Es, Hmp. reflexivity.
Qed.

(** ** Checking [identity_ok] by computation *)

Lemma no_alias_identity_ok {V} `{Particle V} (vs : list V) :
  no_alias vs = true -> identity_ok vs.
Proof.
  induction vs as [|v vs IH]; simpl; intros N x y Hx Hy E; [destruct Hx|].
  apply andb_true_iff in N. destruct N as [N1 N2].
  apply negb_true_iff in N1.
  assert (fresh_v : forall z, In z vs -> oid (simple v) <> oid (simple z)).
  { intros z Hz Ez.
    assert (existsb (same_object v) vs = true); [|congruence].
    apply existsb_exists. exists z. split; [assumption|].
    apply same_object_true. assumption. }
  destruct Hx as [<-|Hx], Hy as [<-|Hy].
  - reflexivity.
  - exfalso. eapply fresh_v; eauto.
  - exfalso. eapply fresh_v; eauto.
  - apply IH; assumption.
Qed.

Example patient_a_update :
  Patient_update (patient_a, world_a)
  = (Returned 2%nat,
     (mkPatient [simple_a 0; mkSimpleVirus 100 (1 # 2) (1 # 10)] 10,
      mkWorld draws_a 3 101)).
Proof. reflexivity. Qed.

Example treated_a_update :
  TreatedPatient_update (treated_a, world_a)
  = (Returned 2%nat,
     (mkTreatedPatient
        (mkPatient
           [resistant_a 0;
            mkResistantVirus (mkSimpleVirus 100 (1 # 2) (1 # 10))
              [("A"%string, false); ("B"%string, false)] (1 # 50)] 10)
        ["A"%string],
      mkWorld draws_a 5 101)).
Proof. reflexivity. Qed.

(** * The properties of the specification *)

(** C1. For every host ([Patient] or [TreatedPatient], with [maxPop <> 0]
    and a population in which identity determines the particle) and every
    outcome of the random draws, one call to [update()] decides
    clearance for each particle of the pre-step population by that particle's
    own draw, computes the density once from the number of survivors, lets
    exactly the survivors make their reproduction calls at that density,
    commits survivors followed by the offspring of this step (every one the
    child of a survivor, at most one per survivor), and returns the size of
    the committed population. *)
Theorem update_one_step :
  (forall (p : Patient SimpleVirus) (w : World),
     maxPop p <> 0%Z ->
     identity_ok (viruses p) ->
     exists after w',
       Patient_update (p, w)
       = (Returned (length after), (mkPatient after (maxPop p), w')) /\
       one_step (fun popDensity virus => SimpleVirus_reproduce virus popDensity)
         simple_child_of (viruses p) (maxPop p) w
         (Returned (length after)) after w') /\
  (forall (t : TreatedPatient) (w : World),
     maxPop (patient t) <> 0%Z ->
     identity_ok (viruses (patient t)) ->
     exists after w',
       TreatedPatient_update (t, w)
       = (Returned (length after),
          (mkTreatedPatient (mkPatient after (maxPop (patient t)))
             (prescriptions t), w')) /\
       one_step (fun popDensity virus =>
                   ResistantVirus_reproduce virus popDensity (prescriptions t))
         resistant_child_of (viruses (patient t)) (maxPop (patient t)) w
         (Returned (length after)) after w').
Proof.
  split.
  - intros p w Hp okp. apply Patient_update_step; assumption.
  - intros t w Ht okt. apply TreatedPatient_update_step; assumption.
Qed.

Lemma update_one_step_witness :
  (maxPop patient_a <> 0%Z /\ identity_ok (viruses patient_a) /\
   maxPop (patient treated_a) <> 0%Z /\
   identity_ok (viruses (patient treated_a))) /\
  (exists after w',
     Patient_update (patient_a, world_a)
     = (Returned (length after), (mkPatient after 10, w')) /\
     one_step (fun popDensity virus => SimpleVirus_reproduce virus popDensity)
       simple_child_of (viruses patient_a) 10 world_a
       (Returned (length after)) after w') /\
  (exists after w',
     TreatedPatient_update (treated_a, world_a)
     = (Returned (length after),
        (mkTreatedPatient (mkPatient after 10) ["A"%string], w')) /\
     one_step (fun popDensity virus =>
                 ResistantVirus_reproduce virus popDensity ["A"%string])
       resistant_child_of (viruses (patient treated_a)) 10 world_a
       (Returned (length after)) after w').
Proof.
  assert (H1 : maxPop patient_a <> 0%Z) by (simpl; lia).
  assert (H2 : identity_ok (viruses patient_a))
    by (apply no_alias_identity_ok; reflexivity).
  assert (H3 : maxPop (patient treated_a) <> 0%Z) by (simpl; lia).
  assert (H4 : identity_ok (viruses (patient treated_a)))
    by (apply no_alias_identity_ok; reflexivity).
  split; [repeat split; assumption|]. split.
  - exact (proj1 update_one_step patient_a world_a H1 H2).
  - exact (proj2 update_one_step treated_a world_a H3 H4).
Defined.

Lemma uniform_world_a : uniform_draws world_a.
Proof.
  intros i. unfold world_a, draws_a; simpl.
  destruct i as [|[|[|[|i]]]]; split; unfold Qle, Qlt; simpl; lia.
Qed.

(** C2, as the code has it. Constructing a host ([Patient] or
    [TreatedPatient]) succeeds for every [maxPop], also when [maxPop <= 0]:
    the constructor stores its arguments and validates nothing. On a host
    built with [maxPop = 0], [update()] raises [ZeroDivisionError] at the
    density computation, whatever the random draws. *)
Theorem construction_accepts_any_maxPop :
  (forall (vs : list SimpleVirus) (mp : Z),
     Patient_init vs mp = Returned (mkPatient vs mp)) /\
  (forall (rs : list ResistantVirus) (mp : Z),
     TreatedPatient_init rs mp
     = Returned (mkTreatedPatient (mkPatient rs mp) [])) /\
  (forall (vs : list SimpleVirus) (w : World),
     identity_ok vs ->
     fst (Patient_update (mkPatient vs 0, w)) = Raised ZeroDivisionError) /\
  (forall (rs : list ResistantVirus) (drugs : list string) (w : World),
     identity_ok rs ->
     fst (TreatedPatient_update (mkTreatedPatient (mkPatient rs 0) drugs, w))
     = Raised ZeroDivisionError).
Proof.
  split; [reflexivity|]. split; [reflexivity|]. split.
  - intros vs w okv.
    destruct (@Patient_update_zero (mkPatient vs 0) w eq_refl okv) as (s & E & _).
    rewrite E. reflexivity.
  - intros rs drugs w okr.
    destruct (@TreatedPatient_update_zero (mkTreatedPatient (mkPatient rs 0) drugs)
                w eq_refl okr) as (s & E & _).
    rewrite E. reflexivity.
Qed.

Lemma construction_accepts_any_maxPop_witness :
  (identity_ok [simple_a 0; simple_a 1] /\
   identity_ok [resistant_a 0; resistant_a 1]) /\
  Patient_init [simple_a 0; simple_a 1] (-3)
  = Returned (mkPatient [simple_a 0; simple_a 1] (-3)) /\
  TreatedPatient_init [resistant_a 0; resistant_a 1] (-3)
  = Returned (mkTreatedPatient (mkPatient [resistant_a 0; resistant_a 1] (-3)) []) /\
  fst (Patient_update (mkPatient [simple_a 0; simple_a 1] 0, world_a))
  = Raised ZeroDivisionError /\
  fst (TreatedPatient_update
         (mkTreatedPatient (mkPatient [resistant_a 0; resistant_a 1] 0)
            ["A"%string],
          world_a))
  = Raised ZeroDivisionError.
Proof.
  assert (H1 : identity_ok [simple_a 0; simple_a 1])
    by (apply no_alias_identity_ok; reflexivity).
  assert (H2 : identity_ok [resistant_a 0; resistant_a 1])
    by (apply no_alias_identity_ok; reflexivity).
  split; [split; assumption|].
  destruct construction_accepts_any_maxPop as (C1 & C2 & C3 & C4).
  split; [apply C1|]. split; [apply C2|]. split.
  - exact (C3 _ world_a H1).
  - exact (C4 _ ["A"%string] world_a H2).
Defined.

(** C2 as stated fails: a host with [maxPop = 0] is constructed without
    error, and the error only shows at the first [update()]. *)
Lemma construction_fails_fast_counterexample :
  Patient_init [simple_a 0] 0 = Returned (mkPatient [simple_a 0] 0) /\
  fst (Patient_update (mkPatient [simple_a 0] 0, world_a))
  = Raised ZeroDivisionError /\
  TreatedPatient_init [resistant_a 0] 0
  = Returned (mkTreatedPatient (mkPatient [resistant_a 0] 0) []) /\
  fst (TreatedPatient_update
         (mkTreatedPatient (mkPatient [resistant_a 0] 0) [], world_a))
  = Raised ZeroDivisionError.
Proof. repeat split. Qed.

(** ** Certain clearance *)

Lemma survivors_of_all_clear {V} `{Particle V} (rnd : nat -> Q) (vs : list V) :
  (forall i, rnd i < 1) ->
  (forall v, In v vs -> clearProb (simple v) == 1) ->
  forall i, survivors_of rnd i vs = [].
Proof.
  intros U. induction vs as [|v vs IH]; intros C i; simpl; [reflexivity|].
  assert (L : Qle_bool (rnd i) (clearProb (simple v)) = true).
  { apply Qle_bool_iff. rewrite (C v (or_introl eq_refl)).
    apply Qlt_le_weak, U. }
  rewrite L. apply IH. intros v' Hv'. apply C. right; assumption.
Qed.

Lemma one_step_all_clear {V} `{Particle V} (call : Q -> V -> M World V)
    (child_of : V -> V -> Prop) (before : list V) (mp : Z) (w : World)
    (result : outcome nat) (after : list V) (w' : World) :
  uniform_draws w ->
  (forall v, In v before -> clearProb (simple v) == 1) ->
  one_step call child_of before mp w result after w' ->
  after = [] /\ w' = skip (length before) w.
Proof.
  intros U C (srv & off & P & _ & B & _ & _ & -> & _).
  rewrite survivors_of_all_clear in P; auto; [|intros i; apply U].
  apply Permutation_sym, Permutation_nil in P. subst srv.
  inversion B; subst. split; reflexivity.
Qed.

(** C5. For every host whose particles all have [clearProb = 1] (and
    [maxPop <> 0]), and for every outcome of the random draws, each in
    [[0,1)], one [update()] call returns [0]: every particle clears, nothing
    reproduces, and the population after the step is empty. *)
Theorem all_clear_population_zero :
  (forall (p : Patient SimpleVirus) (w : World),
     uniform_draws w ->
     (forall v, In v (viruses p) -> clearProb v == 1) ->
     maxPop p <> 0%Z ->
     identity_ok (viruses p) ->
     Patient_update (p, w)
     = (Returned 0%nat,
        (mkPatient [] (maxPop p), skip (length (viruses p)) w))) /\
  (forall (t : TreatedPatient) (w : World),
     uniform_draws w ->
     (forall v, In v (viruses (patient t)) -> clearProb (base v) == 1) ->
     maxPop (patient t) <> 0%Z ->
     identity_ok (viruses (patient t)) ->
     TreatedPatient_update (t, w)
     = (Returned 0%nat,
        (mkTreatedPatient (mkPatient [] (maxPop (patient t))) (prescriptions t),
         skip (length (viruses (patient t))) w))).
Proof.
  split.
  - intros p w U Cp Hp okp.
    destruct (@Patient_update_step p w Hp okp) as (after & w' & E & St).
    assert (Cp' : forall v, In v (viruses p) -> clearProb (simple v) == 1)
      by exact Cp.
    destruct (one_step_all_clear U Cp' St) as [-> ->]. exact E.
  - intros t w U Ct Ht okt.
    destruct (@TreatedPatient_update_step t w Ht okt) as (after & w' & E & St).
    assert (Ct' : forall v, In v (viruses (patient t)) ->
                            clearProb (simple v) == 1) by exact Ct.
    destruct (one_step_all_clear U Ct' St) as [-> ->]. exact E.
Qed.

Lemma all_clear_population_zero_witness :
  (uniform_draws world_a /\
   (forall v, In v (viruses patient_b) -> clearProb v == 1) /\
   (forall v, In v (viruses (patient treated_b)) -> clearProb (base v) == 1) /\
   maxPop patient_b <> 0%Z /\ identity_ok (viruses patient_b) /\
   maxPop (patient treated_b) <> 0%Z /\
   identity_ok (viruses (patient treated_b))) /\
  Patient_update (patient_b, world_a)
  = (Returned 0%nat, (mkPatient [] 10, skip 3 world_a)) /\
  TreatedPatient_update (treated_b, world_a)
  = (Returned 0%nat, (mkTreatedPatient (mkPatient [] 10) [], skip 2 world_a)).
Proof.
  assert (H1 : forall v, In v (viruses patient_b) -> clearProb v == 1).
  { simpl. intros v [<-|[<-|[<-|[]]]]; reflexivity. }
  assert (H2 : forall v, In v (viruses (patient treated_b)) ->
                         clearProb (base v) == 1).
  { simpl. intros v [<-|[<-|[]]]; reflexivity. }
  assert (H3 : maxPop patient_b <> 0%Z) by (simpl; lia).
  assert (H4 : identity_ok (viruses patient_b))
    by (apply no_alias_identity_ok; reflexivity).
  assert (H5 : maxPop (patient treated_b) <> 0%Z) by (simpl; lia).
  assert (H6 : identity_ok (viruses (patient treated_b)))
    by (apply no_alias_identity_ok; reflexivity).
  split; [repeat split; solve [assumption | apply uniform_world_a]|]. split.
  - exact (proj1 all_clear_population_zero patient_b world_a
             uniform_world_a H1 H3 H4).
  - exact (proj2 all_clear_population_zero treated_b world_a
             uniform_world_a H2 H5 H6).
Defined.

(** ** Reproduction at full density *)

Lemma Qle_bool_false (x y : Q) : y < x -> Qle_bool x y = false.
Proof.
  intros L. destruct (Qle_bool x y) eqn:E; [|reflexivity].
  apply Qle_bool_iff in E. lra.
Qed.

Lemma saturated_repProb (b popDensity : Q) :
  0 < b -> 1 <= popDensity -> b * (1 - popDensity) <= 0.
Proof. intros. nra. Qed.

(** At density [>= 1] a draw that is not [0] never leads to a child. *)
Lemma saturated_positive_draw (self : SimpleVirus) (popDensity : Q) (w : World) :
  0 < maxBirthProb self -> 1 <= popDensity -> 0 < rnd w (cursor w) ->
  SimpleVirus_reproduce self popDensity w = (Raised NoChildException, skip 1 w).
Proof.
  intros Hb Hd Hr. rewrite SimpleVirus_reproduce_eq, Qle_bool_false; [reflexivity|].
  pose proof (saturated_repProb Hb Hd). lra.
Qed.

(** At density [> 1] no draw of [[0,1)] leads to a child. *)
Lemma oversaturated_any_draw (self : SimpleVirus) (popDensity : Q) (w : World) :
  0 < maxBirthProb self -> 1 < popDensity -> uniform_draws w ->
  SimpleVirus_reproduce self popDensity w = (Raised NoChildException, skip 1 w).
Proof.
  intros Hb Hd U. rewrite SimpleVirus_reproduce_eq, Qle_bool_false; [reflexivity|].
  destruct (U (cursor w)) as [U0 _].
  assert (maxBirthProb self * (1 - popDensity) < 0) by nra. lra.
Qed.

Lemma uniform_world_zero : uniform_draws world_zero.
Proof. intros i. simpl. split; unfold Qle, Qlt; simpl; lia. Qed.

(** C3, at the input where the code departs from it. A virus with
    [maxBirthProb = 1/2 > 0] called at [popDensity = 1] has [repProb = 0],
    and the code compares with [<=]: on the draw [0.0] it returns an
    offspring, for the basic and for the resistant variant. *)
Theorem full_density_zero_draw_reproduces :
  uniform_draws world_zero /\
  SimpleVirus_reproduce (mkSimpleVirus 0 (1 # 2) (1 # 20)) 1 world_zero
  = (Returned (mkSimpleVirus 100 (1 # 2) (1 # 20)),
     mkWorld (rnd world_zero) 1 101) /\
  ResistantVirus_reproduce
    (mkResistantVirus (mkSimpleVirus 0 (1 # 2) (1 # 20)) [] (1 # 50)) 1 []
    world_zero
  = (Returned (mkResistantVirus (mkSimpleVirus 100 (1 # 2) (1 # 20)) [] (1 # 50)),
     mkWorld (rnd world_zero) 1 101).
Proof. split; [apply uniform_world_zero|]. split; reflexivity. Qed.

(** ** A host whose particles neither clear nor reproduce *)

Lemma uniform_world_half_zero : uniform_draws world_half_zero.
Proof.
  intros i. simpl. destruct i; split; unfold Qle, Qlt; simpl; lia.
Qed.

(** C4, at the inputs where the code departs from it. The host holds one
    particle with [clearProb = 0] and [maxBirthProb = 0]. When the clearance
    draw is [0.0] the particle is removed ([0.0 <= 0]); when the clearance
    draw is [0.5] and the reproduction draw is [0.0] an offspring is
    produced. *)
Theorem inert_host_zero_draw_changes :
  uniform_draws world_zero /\ uniform_draws world_half_zero /\
  Patient_update (mkPatient [inert] 10, world_zero)
  = (Returned 0%nat, (mkPatient [] 10, mkWorld (rnd world_zero) 1 100)) /\
  Patient_update (mkPatient [inert] 10, world_half_zero)
  = (Returned 2%nat,
     (mkPatient [inert; mkSimpleVirus 100 0 0] 10,
      mkWorld (rnd world_half_zero) 2 101)).
Proof.
  split; [apply uniform_world_zero|]. split; [apply uniform_world_half_zero|].
  split; reflexivity.
Qed.

Lemma clearance_none {V} `{Particle V} (vs : list V) :
  (forall v, In v vs -> clearProb (simple v) == 0) ->
  forall (acc : list V) (w : World),
    positive_draws w ->
    for_in vs clear_step acc w = (Returned acc, skip (length vs) w).
Proof.
  induction vs as [|v vs IH]; intros C acc w P; simpl.
  - rewrite skip_0. reflexivity.
  - unfold bind at 1. unfold clear_step at 1. unfold bind at 1.
    unfold doesClear, bind, random, getClearProb. simpl.
    rewrite Qle_bool_false.
    + simpl. rewrite IH.
      * rewrite skip_S. reflexivity.
      * intros v' Hv'. apply C. right; assumption.
      * exact P.
    + rewrite (C v (or_introl eq_refl)). apply P.
Qed.

Lemma breeding_none (popDensity : Q) (vs : list SimpleVirus) :
  (forall v, In v vs -> maxBirthProb v == 0) ->
  forall (acc : list SimpleVirus) (w : World),
    positive_draws w ->
    for_in vs (breed_step (fun v => SimpleVirus_reproduce v popDensity)) acc w
    = (Returned acc, skip (length vs) w).
Proof.
  induction vs as [|v vs IH]; intros B acc w P; simpl.
  - rewrite skip_0. reflexivity.
  - unfold bind at 1. unfold breed_step at 1. unfold try_except, bind.
    rewrite SimpleVirus_reproduce_eq, Qle_bool_false.
    + simpl. rewrite IH.
      * unfold skip at 2. simpl. rewrite skip_S. reflexivity.
      * intros v' Hv'. apply B. right; assumption.
      * exact P.
    + rewrite (B v (or_introl eq_refl)).
      setoid_replace (0 * (1 - popDensity)) with 0 by ring. apply P.
Qed.

Lemma Patient_update_inert (self : Patient SimpleVirus) (w : World) :
  (forall v, In v (viruses self) -> clearProb v == 0 /\ maxBirthProb v == 0) ->
  maxPop self <> 0%Z ->
  positive_draws w ->
  Patient_update (self, w)
  = (Returned (length (viruses self)),
     (self, skip (2 * length (viruses self)) w)).
Proof.
  intros I Hmp P.
  unfold Patient_update, bind, get_self, set_self, lift, true_div, getViruses,
    getTotalPop, getMaxPop, ret, raise. simpl.
  rewrite clearance_none; [|intros v Hv; apply (I v Hv)|exact P]. simpl.
  destruct (Z.eqb_spec (maxPop self) 0) as [E0|_]; [contradiction|].
  rewrite breeding_none; [|intros v Hv; apply (I v Hv)|exact P].
  rewrite app_nil_r, skip_skip. destruct self as [vs mp]. simpl.
  do 3 f_equal. lia.
Qed.

(** ** The drug gate *)

Lemma py_not_resistant_to (virus : ResistantVirus) (drug : string) :
  py_not (isResistantTo virus drug) = negb (resistant_to virus drug).
Proof.
  unfold resistant_to. destruct (isResistantTo virus drug) as [[|]|]; reflexivity.
Qed.

Lemma gate_blocks_true (self : ResistantVirus) (activeDrugs : list string) :
  gate_blocks self activeDrugs = true <->
  exists drug, In drug activeDrugs /\ isResistantTo self drug <> Some true.
Proof.
  unfold gate_blocks. rewrite existsb_exists. split.
  - intros (d & Hin & N). exists d. split; [assumption|].
    intros E. rewrite E in N. discriminate.
  - intros (d & Hin & N). exists d. split; [assumption|].
    destruct (isResistantTo self d) as [[|]|]; [contradiction|reflexivity..].
Qed.

(** C6. [ResistantVirus.reproduce] raises [NoChildException] whenever some
    drug of [activeDrugs] is one the particle is not resistant to, whatever
    the random source holds and without consuming a draw; an empty
    [activeDrugs] list passes the gate, and the call then returns a child
    exactly when the draw is [<= maxBirthProb * (1 - popDensity)] and raises
    [NoChildException] otherwise. *)
Theorem drug_gate :
  (forall (self : ResistantVirus) (popDensity : Q) (activeDrugs : list string)
          (drug : string) (w : World),
      In drug activeDrugs ->
      isResistantTo self drug <> Some true ->
      ResistantVirus_reproduce self popDensity activeDrugs w
      = (Raised NoChildException, w)) /\
  (forall (self : ResistantVirus) (popDensity : Q) (w : World),
      gate_blocks self [] = false /\
      exists child w',
        ResistantVirus_reproduce self popDensity [] w
        = if Qle_bool (rnd w (cursor w))
               (maxBirthProb (base self) * (1 - popDensity))
          then (Returned child, w')
          else (Raised NoChildException, skip 1 w)).
Proof.
  split.
  - intros self pd drugs drug w Hin N.
    apply reproduce_blocked. apply gate_blocks_true. eauto.
  - intros self pd w. split; [reflexivity|].
    destruct (Qle_bool (rnd w (cursor w)) (maxBirthProb (base self) * (1 - pd)))
      eqn:L.
    + destruct (@reproduce_lucky self pd [] w eq_refl L) as (d' & E & _).
      eauto.
    + exists self, w. apply reproduce_unlucky; [reflexivity|assumption].
Qed.

Lemma drug_gate_witness :
  (In "D"%string ["D"%string] /\
   isResistantTo sensitive_D "D"%string <> Some true) /\
  ResistantVirus_reproduce sensitive_D 0 ["D"%string] world_zero
  = (Raised NoChildException, world_zero).
Proof.
  assert (H1 : In "D"%string ["D"%string]) by (simpl; auto).
  assert (H2 : isResistantTo sensitive_D "D"%string <> Some true)
    by (vm_compute; discriminate).
  split; [split; assumption|].
  exact (proj1 drug_gate sensitive_D 0 ["D"%string] "D"%string world_zero H1 H2).
Defined.

(** ** Counting resistant particles *)

Lemma resistant_flag_loop (virus : ResistantVirus) (drugResist : list string) :
  forall b,
    fold_left
      (fun virusIsResistant drug =>
         if py_not (isResistantTo virus drug) then false else virusIsResistant)
      drugResist b
    = b && resists_all virus drugResist.
Proof.
  induction drugResist as [|d ds IH]; intros b; simpl.
  - rewrite andb_true_r. reflexivity.
  - rewrite IH, py_not_resistant_to.
    destruct (resistant_to virus d); simpl; [reflexivity|].
    rewrite andb_false_r. reflexivity.
Qed.

Lemma count_loop (drugResist : list string) (vs : list ResistantVirus) :
  forall n,
    fold_left
      (fun numResistantViruses virus =>
         if (0 <? length drugResist)%nat
         then
           let virusIsResistant :=
             fold_left
               (fun virusIsResistant drug =>
                  if py_not (isResistantTo virus drug) then false
                  else virusIsResistant)
               drugResist true in
           if virusIsResistant then (numResistantViruses + 1)%nat
           else numResistantViruses
         else numResistantViruses)
      vs n
    = (n + if (0 <? length drugResist)%nat
           then length (filter (fun v => resists_all v drugResist) vs)
           else 0)%nat.
Proof.
  induction vs as [|v vs IH]; intros n; simpl.
  - destruct (0 <? length drugResist)%nat; lia.
  - rewrite IH. destruct (0 <? length drugResist)%nat; [|reflexivity].
    rewrite resistant_flag_loop. simpl.
    destruct (resists_all v drugResist); simpl; lia.
Qed.

Lemma getResistPop_eq (self : TreatedPatient) (drugList : list string) :
  getResistPop self drugList
  = match drugList with
    | [] => 0%nat
    | _ :: _ =>
        length (filter (fun virus => resists_all virus drugList)
                  (viruses (patient self)))
    end.
Proof.
  unfold getResistPop, getViruses. rewrite count_loop.
  destruct drugList; reflexivity.
Qed.

(** C7. For every [TreatedPatient], [getResistPop(drugList)] returns the
    number of particles of the current population that are resistant to every
    drug named in [drugList]; when [drugList] is empty it returns [0] for
    every population, not the population size. *)
Theorem getResistPop_counts (self : TreatedPatient) :
  getResistPop self [] = 0%nat /\
  forall (drug : string) (others : list string),
    getResistPop self (drug :: others)
    = length (filter (fun virus => resists_all virus (drug :: others))
                (getViruses (patient self))).
Proof.
  split; [|intros drug others]; rewrite getResistPop_eq; reflexivity.
Qed.

Example getResistPop_treated_a :
  getResistPop treated_a ["A"%string] = 2%nat /\
  getResistPop treated_a ["A"%string; "B"%string] = 0%nat /\
  getResistPop treated_a [] = 0%nat.
Proof. repeat split. Qed.

(** ** Prescriptions *)

Lemma py_in_In (x : string) (l : list string) : py_in x l = true <-> In x l.
Proof.
  unfold py_in. rewrite existsb_exists. split.
  - intros (y & Hin & E). apply String.eqb_eq in E. subst. assumption.
  - intros Hin. exists x. split; [assumption|apply String.eqb_refl].
Qed.

Lemma addPrescription_eq (newDrug : string) (self : TreatedPatient) (w : World) :
  addPrescription newDrug (self, w)
  = if py_in newDrug (prescriptions self)
    then (Returned tt, (self, w))
    else (Returned tt,
          (mkTreatedPatient (patient self) (prescriptions self ++ [newDrug]), w)).
Proof.
  unfold addPrescription, bind, get_self, set_self, ret, getPrescriptions.
  destruct (py_in newDrug (prescriptions self)); reflexivity.
Qed.

Lemma addPrescription_present (newDrug : string) (st : TreatedPatient * World) :
  In newDrug (prescriptions (fst (snd (addPrescription newDrug st)))).
Proof.
  destruct st as [self w]. rewrite addPrescription_eq.
  destruct (py_in newDrug (prescriptions self)) eqn:E; simpl.
  - apply py_in_In. assumption.
  - apply in_or_app. right. left. reflexivity.
Qed.

(** [update()] never touches the prescriptions, whether it returns or
    raises. *)
Lemma TreatedPatient_update_prescriptions (self : TreatedPatient) (w : World) :
  prescriptions (fst (snd (TreatedPatient_update (self, w))))
  = prescriptions self.
Proof.
  unfold TreatedPatient_update, bind, get_self, set_self, lift, true_div,
    getViruses, getTotalPop, getMaxPop, getPrescriptions, ret, raise. simpl.
  destruct (for_in (viruses (patient self)) clear_step (viruses (patient self)) w)
    as [[srv|e] w1]; simpl; [|reflexivity].
  destruct (maxPop (patient self) =? 0)%Z; simpl; [reflexivity|].
  destruct (for_in srv _ [] w1) as [[off|e] w2]; reflexivity.
Qed.

Lemma apply_operation_extends (op : operation) (st : TreatedPatient * World) :
  exists more,
    prescriptions (fst (apply_operation op st))
    = prescriptions (fst st) ++ more.
Proof.
  destruct st as [self w]. destruct op; simpl.
  - rewrite addPrescription_eq.
    destruct (py_in drug (prescriptions self)); simpl.
    + exists []. rewrite app_nil_r. reflexivity.
    + exists [drug]. reflexivity.
  - exists []. rewrite app_nil_r. apply TreatedPatient_update_prescriptions.
  - exists []. rewrite app_nil_r. reflexivity.
  - exists []. rewrite app_nil_r. reflexivity.
  - exists []. rewrite app_nil_r. reflexivity.
Qed.

Lemma run_extends (ops : list operation) :
  forall st,
    exists more,
      prescriptions (fst (run ops st)) = prescriptions (fst st) ++ more.
Proof.
  induction ops as [|op ops IH]; intros st.
  - exists []. rewrite app_nil_r. reflexivity.
  - destruct (apply_operation_extends op st) as (m1 & E1).
    destruct (IH (apply_operation op st)) as (m2 & E2).
    exists (m1 ++ m2). unfold run in *. simpl.
    rewrite E2, E1, app_assoc. reflexivity.
Qed.

(** C8. [addPrescription(d)] appends [d] only when it is absent; a second
    call with the same name changes nothing (so [getPrescriptions()] keeps
    its length and contents); and no operation on the host removes a drug:
    after any sequence of operations the earlier prescriptions are still
    there, in the same order, followed by the drugs added since. *)
Theorem prescriptions_grow_only :
  (forall (d : string) (self : TreatedPatient) (w : World),
      addPrescription d (self, w)
      = if py_in d (prescriptions self)
        then (Returned tt, (self, w))
        else (Returned tt,
              (mkTreatedPatient (patient self) (prescriptions self ++ [d]), w))) /\
  (forall (d : string) (st : TreatedPatient * World),
      In d (getPrescriptions (fst (snd (addPrescription d st))))) /\
  (forall (d : string) (st : TreatedPatient * World),
      addPrescription d (snd (addPrescription d st))
      = (Returned tt, snd (addPrescription d st))) /\
  (forall (ops : list operation) (st : TreatedPatient * World),
      exists more,
        getPrescriptions (fst (run ops st))
        = getPrescriptions (fst st) ++ more) /\
  (forall (ops : list operation) (st : TreatedPatient * World),
      incl (getPrescriptions (fst st)) (getPrescriptions (fst (run ops st)))).
Proof.
  split; [exact addPrescription_eq|].
  split; [exact addPrescription_present|].
  split; [|split].
  - intros d st.
    pose proof (addPrescription_present d st) as Hin.
    destruct (snd (addPrescription d st)) as [self' w'] eqn:E. simpl in Hin.
    rewrite addPrescription_eq.
    apply py_in_In in Hin. rewrite Hin. reflexivity.
  - intros ops st. apply run_extends.
  - intros ops st d Hin. destruct (run_extends ops st) as (more & E).
    unfold getPrescriptions in *. rewrite E. apply in_or_app. left. assumption.
Qed.

Example addPrescription_twice :
  getPrescriptions
    (fst (run [OpAddPrescription "B"%string; OpUpdate;
               OpAddPrescription "B"%string; OpAddPrescription "A"%string]
            (treated_a, world_a)))
  = ["A"%string; "B"%string].
Proof. reflexivity. Qed.

(** ** Inheritance *)

Lemma SimpleVirus_offspring (self child : SimpleVirus) (popDensity : Q)
    (w w' : World) :
  SimpleVirus_reproduce self popDensity w = (Returned child, w') ->
  child = mkSimpleVirus (fresh w) (maxBirthProb self) (clearProb self).
Proof.
  rewrite SimpleVirus_reproduce_eq.
  destruct (Qle_bool _ _); intros E; inversion E. reflexivity.
Qed.

Lemma ResistantVirus_offspring (self child : ResistantVirus) (popDensity : Q)
    (activeDrugs : list string) (w w' : World) :
  ResistantVirus_reproduce self popDensity activeDrugs w = (Returned child, w') ->
  base child = mkSimpleVirus (fresh w) (maxBirthProb (base self))
                 (clearProb (base self)) /\
  mutProb child = mutProb self /\
  keys (resistances child) = keys (resistances self) /\
  (dict_ok (resistances self) ->
   resistances child
   = mutated (mutProb self) (rnd w) (S (cursor w)) (resistances self)).
Proof.
  intros E. destruct (gate_blocks self activeDrugs) eqn:G.
  - rewrite reproduce_blocked in E by assumption. discriminate.
  - destruct (Qle_bool (rnd w (cursor w))
                (maxBirthProb (base self) * (1 - popDensity))) eqn:L.
    + destruct (@reproduce_lucky self popDensity activeDrugs w G L)
        as (d' & E' & K & D).
      rewrite E' in E. inversion E; subst. simpl. auto.
    + rewrite reproduce_unlucky in E by assumption. discriminate.
Qed.

(** C9. Every offspring produced by [reproduce] (basic or resistant) has the
    [maxBirthProb] and [clearProb] of its parent and, for the resistant
    variant, the parent's [mutProb]; the resistance map of a resistant
    offspring has the parent's keys, in the parent's order, and each value
    is the parent's value, negated exactly when that key's own draw is
    [<= mutProb]. *)
Theorem offspring_inherit :
  (forall (self child : SimpleVirus) (popDensity : Q) (w w' : World),
      SimpleVirus_reproduce self popDensity w = (Returned child, w') ->
      maxBirthProb child = maxBirthProb self /\
      clearProb child = clearProb self) /\
  (forall (self child : ResistantVirus) (popDensity : Q)
          (activeDrugs : list string) (w w' : World),
      ResistantVirus_reproduce self popDensity activeDrugs w
      = (Returned child, w') ->
      maxBirthProb (base child) = maxBirthProb (base self) /\
      clearProb (base child) = clearProb (base self) /\
      mutProb child = mutProb self /\
      keys (resistances child) = keys (resistances self) /\
      (dict_ok (resistances self) ->
       resistances child
       = mutated (mutProb self) (rnd w) (S (cursor w)) (resistances self))).
Proof.
  split.
  - intros self child pd w w' E.
    apply SimpleVirus_offspring in E. subst. split; reflexivity.
  - intros self child pd drugs w w' E.
    apply ResistantVirus_offspring in E. destruct E as (B & Mp & K & D).
    rewrite B. simpl. auto.
Qed.

Lemma offspring_inherit_witness :
  (SimpleVirus_reproduce (base mutable_a) (1 # 2) world_m
   = (Returned (mkSimpleVirus 100 1 (1 # 10)), mkWorld (rnd world_m) 1 101) /\
   ResistantVirus_reproduce mutable_a (1 # 2) ["A"%string] world_m
   = (Returned (mkResistantVirus (mkSimpleVirus 100 1 (1 # 10))
                  [("A"%string, false); ("B"%string, false)] (1 # 50)),
      mkWorld (rnd world_m) 3 101) /\
   dict_ok (resistances mutable_a)) /\
  (maxBirthProb (mkSimpleVirus 100 1 (1 # 10)) = maxBirthProb (base mutable_a) /\
   clearProb (mkSimpleVirus 100 1 (1 # 10)) = clearProb (base mutable_a)) /\
  mutProb (mkResistantVirus (mkSimpleVirus 100 1 (1 # 10))
             [("A"%string, false); ("B"%string, false)] (1 # 50))
  = mutProb mutable_a /\
  [("A"%string, false); ("B"%string, false)]
  = mutated (mutProb mutable_a) (rnd world_m) 1 (resistances mutable_a).
Proof.
  assert (H1 : SimpleVirus_reproduce (base mutable_a) (1 # 2) world_m
               = (Returned (mkSimpleVirus 100 1 (1 # 10)),
                  mkWorld (rnd world_m) 1 101)) by reflexivity.
  assert (H2 : ResistantVirus_reproduce mutable_a (1 # 2) ["A"%string] world_m
               = (Returned (mkResistantVirus (mkSimpleVirus 100 1 (1 # 10))
                              [("A"%string, false); ("B"%string, false)] (1 # 50)),
                  mkWorld (rnd world_m) 3 101)) by reflexivity.
  assert (H3 : dict_ok (resistances mutable_a)).
  { unfold dict_ok. simpl. repeat constructor; simpl; intuition discriminate. }
  split; [repeat split; assumption|].
  split; [exact (proj1 offspring_inherit _ _ _ _ _ H1)|].
  destruct (proj2 offspring_inherit _ _ _ _ _ _ H2) as (_ & _ & Mp & _ & D).
  split; [exact Mp|exact (D H3)].
Defined.

(** ** Unknown drugs *)

Lemma resists_all_unknown (virus : ResistantVirus) (drugs : list string)
    (drug : string) :
  In drug drugs -> isResistantTo virus drug = None ->
  resists_all virus drugs = false.
Proof.
  intros Hin N. unfold resists_all.
  destruct (forallb (resistant_to virus) drugs) eqn:F; [|reflexivity].
  rewrite forallb_forall in F. specialize (F drug Hin).
  unfold resistant_to in F. rewrite N in F. discriminate.
Qed.

(** C10. For every [ResistantVirus], [isResistantTo] on a drug name absent
    from its [resistances] yields the absence value, which is neither [True]
    nor [False]; in [reproduce] an unknown active drug blocks reproduction,
    with the same outcome as a drug whose stored value is [False]; and in
    [getResistPop] a particle that lacks a listed drug is not counted. *)
Theorem unknown_drug :
  (forall (self : ResistantVirus) (drug : string),
      ~ In drug (keys (resistances self)) ->
      isResistantTo self drug = None /\
      isResistantTo self drug <> Some true /\
      isResistantTo self drug <> Some false) /\
  (forall (self other : ResistantVirus) (popDensity : Q)
          (activeDrugs : list string) (drug : string) (w : World),
      In drug activeDrugs ->
      ~ In drug (keys (resistances self)) ->
      isResistantTo other drug = Some false ->
      ResistantVirus_reproduce self popDensity activeDrugs w
      = (Raised NoChildException, w) /\
      ResistantVirus_reproduce other popDensity activeDrugs w
      = ResistantVirus_reproduce self popDensity activeDrugs w) /\
  (forall (front back : list ResistantVirus) (virus : ResistantVirus)
          (maxPop : Z) (prescribed drugList : list string) (drug : string),
      In drug drugList ->
      ~ In drug (keys (resistances virus)) ->
      getResistPop
        (mkTreatedPatient (mkPatient (front ++ virus :: back) maxPop) prescribed)
        drugList
      = getResistPop
          (mkTreatedPatient (mkPatient (front ++ back) maxPop) prescribed)
          drugList).
Proof.
  split; [|split].
  - intros self drug Habs. unfold isResistantTo.
    rewrite dict_get_absent by assumption. repeat split; discriminate.
  - intros self other pd drugs drug w Hin Habs Hother.
    assert (E1 : ResistantVirus_reproduce self pd drugs w
                 = (Raised NoChildException, w)).
    { apply reproduce_blocked, gate_blocks_true. exists drug.
      split; [assumption|]. unfold isResistantTo.
      rewrite dict_get_absent by assumption. discriminate. }
    assert (E2 : ResistantVirus_reproduce other pd drugs w
                 = (Raised NoChildException, w)).
    { apply reproduce_blocked, gate_blocks_true. exists drug.
      split; [assumption|]. rewrite Hother. discriminate. }
    rewrite E1, E2. split; reflexivity.
  - intros front back virus mp prescribed drugList drug Hin Habs.
    rewrite !getResistPop_eq.
    destruct drugList as [|d ds]; [reflexivity|].
    cbn [viruses patient]. rewrite !filter_app, !length_app. f_equal.
    cbn [filter].
    rewrite (@resists_all_unknown virus (d :: ds) drug Hin); [reflexivity|].
    unfold isResistantTo. apply dict_get_absent. assumption.
Qed.

Lemma unknown_drug_witness :
  (~ In "A"%string (keys (resistances sensitive_D)) /\
   In "A"%string ["A"%string] /\
   isResistantTo (mkResistantVirus (mkSimpleVirus 0 1 0)
                    [("A"%string, false)] (1 # 50)) "A"%string = Some false) /\
  isResistantTo sensitive_D "A"%string = None /\
  ResistantVirus_reproduce sensitive_D 0 ["A"%string] world_zero
  = (Raised NoChildException, world_zero) /\
  getResistPop treated_c ["A"%string]
  = getResistPop
      (mkTreatedPatient (mkPatient [resistant_a 0; resistant_a 1] 10) [])
      ["A"%string].
Proof.
  assert (H1 : ~ In "A"%string (keys (resistances sensitive_D)))
    by (simpl; intuition discriminate).
  assert (H2 : In "A"%string ["A"%string]) by (simpl; auto).
  assert (H3 : isResistantTo (mkResistantVirus (mkSimpleVirus 0 1 0)
                                [("A"%string, false)] (1 # 50)) "A"%string
               = Some false) by reflexivity.
  split; [repeat split; assumption|].
  destruct unknown_drug as (U1 & U2 & U3).
  split; [exact (proj1 (U1 sensitive_D "A"%string H1))|].
  split; [exact (proj1 (U2 sensitive_D _ 0 ["A"%string] "A"%string world_zero
                          H2 H1 H3))|].
  exact (U3 [resistant_a 0] [resistant_a 1] sensitive_D 10%Z [] ["A"%string]
            "A"%string H2 H1).
Defined.

(** * Further properties of the code *)

(** ** Facts about the concrete inputs *)

Lemma positive_world_fifth : positive_draws world_fifth.
Proof. intros i. reflexivity. Qed.

Lemma uniform_world_fifth : uniform_draws world_fifth.
Proof. intros i. simpl. split; unfold Qle, Qlt; simpl; lia. Qed.

Lemma heap_ok_patient_a : heap_ok (viruses patient_a) world_a.
Proof.
  split.
  - apply no_alias_NoDup. reflexivity.
  - simpl. intros v [<-|[<-|[]]]; unfold oid_of; simpl; lia.
Qed.

Lemma heap_ok_treated_a : heap_ok (viruses (patient treated_a)) world_a.
Proof.
  split.
  - apply no_alias_NoDup. reflexivity.
  - simpl. intros v [<-|[<-|[]]]; unfold oid_of; simpl; lia.
Qed.

(** ** [update()] on any list of particles *)

Section AnyList.
Context {V : Type} `{Particle V}.

Lemma list_remove_by_identity (x : V) (l : list V) :
  In (oid_of x) (map oid_of l) ->
  exists l',
    list_remove x l = Some l' /\
    Permutation (map oid_of l) (oid_of x :: map oid_of l') /\
    incl l' l.
Proof.
  induction l as [|y l IH]; simpl; intros Hin; [destruct Hin|].
  destruct (same_object y x) eqn:E.
  - exists l. split; [reflexivity|]. split.
    + apply same_object_true in E. unfold oid_of. rewrite E. reflexivity.
    + intros a Ha. right; assumption.
  - destruct Hin as [Hy|Hin].
    + unfold same_object in E. unfold oid_of in Hy. rewrite Hy in E.
      rewrite Nat.eqb_refl in E. discriminate.
    + destruct (IH Hin) as (l' & -> & P & I).
      exists (y :: l'). split; [reflexivity|]. split.
      * simpl. rewrite P. apply perm_swap.
      * intros a [->|Ha]; [left; reflexivity|right; apply I; assumption].
Qed.

(** The clearance loop never raises: the particle to remove is always still
    in the copy. The survivors are as many as [survivors_of] says, with the
    same identities, and all come from the copy. *)
Lemma clearance_loop_total (vs : list V) :
  forall (acc kept : list V) (w : World),
    Permutation (map oid_of acc) (map oid_of (kept ++ vs)) ->
    exists survivors,
      for_in vs clear_step acc w = (Returned survivors, skip (length vs) w) /\
      Permutation (map oid_of survivors)
        (map oid_of (kept ++ survivors_of (rnd w) (cursor w) vs)) /\
      incl survivors acc.
Proof.
  induction vs as [|v vs IH]; intros acc kept w P.
  - exists acc. simpl. rewrite skip_0.
    split; [reflexivity|]. split; [assumption|apply incl_refl].
  - simpl. unfold bind at 1. unfold clear_step at 1.
    unfold bind at 1. unfold doesClear, bind, random, getClearProb. simpl.
    destruct (Qle_bool (rnd w (cursor w)) (clearProb (simple v))) eqn:E; simpl.
    + assert (Hin : In (oid_of v) (map oid_of acc)).
      { eapply Permutation_in; [apply Permutation_sym, P|].
        rewrite map_app. apply in_or_app; right; left; reflexivity. }
      destruct (list_remove_by_identity v acc Hin) as (acc' & R & P' & I).
      unfold remove. rewrite R. unfold ret.
      assert (P2 : Permutation (map oid_of acc') (map oid_of (kept ++ vs))).
      { apply Permutation_cons_inv with (a := oid_of v).
        rewrite <- P', P, !map_app. simpl. symmetry. apply Permutation_middle. }
      destruct (IH acc' kept (mkWorld (rnd w) (S (cursor w)) (fresh w)) P2)
        as (s & Hs & Ps & Is).
      exists s. rewrite Hs, skip_S. split; [reflexivity|].
      split; [exact Ps|]. intros a Ha. apply I, Is, Ha.
    + assert (P2 : Permutation (map oid_of acc) (map oid_of ((kept ++ [v]) ++ vs))).
      { rewrite <- app_assoc. exact P. }
      destruct (IH acc (kept ++ [v]) (mkWorld (rnd w) (S (cursor w)) (fresh w)) P2)
        as (s & Hs & Ps & Is).
      exists s. rewrite Hs, skip_S. split; [reflexivity|].
      rewrite <- app_assoc in Ps. split; [exact Ps|exact Is].
Qed.

Lemma survivors_of_incl (rnd : nat -> Q) (vs : list V) :
  forall i, incl (survivors_of rnd i vs) vs.
Proof.
  induction vs as [|v vs IH]; intros i a; simpl; [auto|].
  destruct (Qle_bool _ _); [right; eapply IH; eassumption|].
  intros [->|Ha]; [left; reflexivity|right; eapply IH; eassumption].
Qed.

Lemma survivors_of_length (rnd : nat -> Q) (vs : list V) :
  forall i, (length (survivors_of rnd i vs) <= length vs)%nat.
Proof.
  induction vs as [|v vs IH]; intros i; simpl; [lia|].
  specialize (IH (S i)). destruct (Qle_bool _ _); simpl; lia.
Qed.

Lemma survivors_of_NoDup (rnd : nat -> Q) (vs : list V) :
  forall i, NoDup (map oid_of vs) -> NoDup (map oid_of (survivors_of rnd i vs)).
Proof.
  induction vs as [|v vs IH]; intros i N; simpl; [constructor|].
  inversion N as [|? ? Hn N']; subst.
  destruct (Qle_bool _ _); [apply IH; assumption|].
  simpl. constructor; [|apply IH; assumption].
  intros Hin. apply Hn. apply in_map_iff in Hin. destruct Hin as (z & Ez & Hz).
  apply in_map_iff. exists z. split; [assumption|].
  eapply survivors_of_incl; eassumption.
Qed.

(** The whole clearance phase of [update]. *)
Lemma clearance_phase (vs : list V) (w : World) :
  exists survivors,
    for_in vs clear_step vs w = (Returned survivors, skip (length vs) w) /\
    length survivors = length (survivors_of (rnd w) (cursor w) vs) /\
    incl survivors vs /\
    (NoDup (map oid_of vs) -> survivors = survivors_of (rnd w) (cursor w) vs).
Proof.
  destruct (@clearance_loop_total vs vs [] w (Permutation_refl _))
    as (s & E & P & I).
  exists s. split; [exact E|]. split; [|split; [exact I|]].
  - apply Permutation_length in P. rewrite !length_map in P. exact P.
  - intros N. pose proof (@clearance_loop_exact _ _ vs [] w N) as Ex.
    simpl in Ex. rewrite Ex in E. congruence.
Qed.
End AnyList.

(** ** The two [update] methods, case by case *)

Lemma Patient_update_cases (self : Patient SimpleVirus) (w : World) :
  exists survivors,
    length survivors
    = length (survivors_of (rnd w) (cursor w) (viruses self)) /\
    incl survivors (viruses self) /\
    (NoDup (map oid_of (viruses self)) ->
     survivors = survivors_of (rnd w) (cursor w) (viruses self)) /\
    ((maxPop self = 0%Z /\
      Patient_update (self, w)
      = (Raised ZeroDivisionError,
         (mkPatient survivors (maxPop self), skip (length (viruses self)) w))) \/
     (maxPop self <> 0%Z /\
      exists offspring w',
        Patient_update (self, w)
        = (Returned (length (survivors ++ offspring)),
           (mkPatient (survivors ++ offspring) (maxPop self), w')) /\
        breeds (fun v => SimpleVirus_reproduce v
                           (inject_Z (Z.of_nat (length survivors))
                            / inject_Z (maxPop self)))
          (skip (length (viruses self)) w) survivors offspring w')).
Proof.
  destruct (clearance_phase (viruses self) w) as (srv & Es & L & I & X).
  exists srv. split; [exact L|]. split; [exact I|]. split; [exact X|].
  destruct (Z.eqb_spec (maxPop self) 0) as [E0|N0].
  - left. split; [exact E0|].
    unfold Patient_update, bind, get_self, set_self, lift, true_div, getViruses,
      getTotalPop, getMaxPop, ret, raise. simpl.
    rewrite Es. simpl. rewrite E0. reflexivity.
  - right. split; [exact N0|].
    set (pd := inject_Z (Z.of_nat (length srv)) / inject_Z (maxPop self)).
    destruct (@breeding_loop _ (fun v => SimpleVirus_reproduce v pd) srv
                (SimpleVirus_reproduce_only_no_child pd) []
                (skip (length (viruses self)) w))
      as (off & w' & Eo & Bo).
    exists off, w'. split; [|exact Bo].
    unfold Patient_update, bind, get_self, set_self, lift, true_div, getViruses,
      getTotalPop, getMaxPop, ret, raise. simpl.
    rewrite Es. simpl.
    destruct (Z.eqb_spec (maxPop self) 0) as [E0|_]; [contradiction|].
    fold pd. rewrite Eo. reflexivity.
Qed.

Lemma TreatedPatient_update_cases (self : TreatedPatient) (w : World) :
  exists survivors,
    length survivors
    = length (survivors_of (rnd w) (cursor w) (viruses (patient self))) /\
    incl survivors (viruses (patient self)) /\
    (NoDup (map oid_of (viruses (patient self))) ->
     survivors = survivors_of (rnd w) (cursor w) (viruses (patient self))) /\
    ((maxPop (patient self) = 0%Z /\
      TreatedPatient_update (self, w)
      = (Raised ZeroDivisionError,
         (mkTreatedPatient (mkPatient survivors (maxPop (patient self)))
            (prescriptions self),
          skip (length (viruses (patient self))) w))) \/
     (maxPop (patient self) <> 0%Z /\
      exists offspring w',
        TreatedPatient_update (self, w)
        = (Returned (length (survivors ++ offspring)),
           (mkTreatedPatient
              (mkPatient (survivors ++ offspring) (maxPop (patient self)))
              (prescriptions self), w')) /\
        breeds (fun v => ResistantVirus_reproduce v
                           (inject_Z (Z.of_nat (length survivors))
                            / inject_Z (maxPop (patient self)))
                           (prescriptions self))
          (skip (length (viruses (patient self))) w) survivors offspring w')).
Proof.
  destruct (clearance_phase (viruses (patient self)) w) as (srv & Es & L & I & X).
  exists srv. split; [exact L|]. split; [exact I|]. split; [exact X|].
  destruct (Z.eqb_spec (maxPop (patient self)) 0) as [E0|N0].
  - left. split; [exact E0|].
    unfold TreatedPatient_update, bind, get_self, set_self, lift, true_div,
      getViruses, getTotalPop, getMaxPop, ret, raise. simpl.
    rewrite Es. simpl. rewrite E0. reflexivity.
  - right. split; [exact N0|].
    set (pd := inject_Z (Z.of_nat (length srv)) / inject_Z (maxPop (patient self))).
    destruct (@breeding_loop _
                (fun v => ResistantVirus_reproduce v pd (prescriptions self)) srv
                (reproduce_only_no_child pd (prescriptions self)) []
                (skip (length (viruses (patient self))) w))
      as (off & w' & Eo & Bo).
    exists off, w'. split; [|exact Bo].
    unfold TreatedPatient_update, bind, get_self, set_self, lift, true_div,
      getViruses, getTotalPop, getMaxPop, getPrescriptions, ret, raise. simpl.
    rewrite Es. simpl.
    destruct (Z.eqb_spec (maxPop (patient self)) 0) as [E0|_]; [contradiction|].
    fold pd. rewrite Eo. reflexivity.
Qed.

(** X1. Whatever the population (even with one object listed several times)
    and whatever the draws, [update()] of either host class returns, or raises
    [ZeroDivisionError]; it raises exactly when [maxPop = 0].
    [NoChildException] never leaves [update()], and [list.remove] never
    raises [ValueError]. *)
Theorem update_raises_only_zero_division :
  (forall (self : Patient SimpleVirus) (w : World),
      returned_or_zero_division (fst (Patient_update (self, w))) /\
      (fst (Patient_update (self, w)) = Raised ZeroDivisionError
       <-> maxPop self = 0%Z)) /\
  (forall (self : TreatedPatient) (w : World),
      returned_or_zero_division (fst (TreatedPatient_update (self, w))) /\
      (fst (TreatedPatient_update (self, w)) = Raised ZeroDivisionError
       <-> maxPop (patient self) = 0%Z)).
Proof.
  split.
  - intros self w.
    destruct (Patient_update_cases self w)
      as (s & _ & _ & _ & [[E0 E]|[N0 (o & w' & E & _)]]); rewrite E; simpl.
    + split; [exact I|]. split; auto.
    + split; [exact I|]. split; [discriminate|contradiction].
  - intros self w.
    destruct (TreatedPatient_update_cases self w)
      as (s & _ & _ & _ & [[E0 E]|[N0 (o & w' & E & _)]]); rewrite E; simpl.
    + split; [exact I|]. split; auto.
    + split; [exact I|]. split; [discriminate|contradiction].
Qed.

(** ** Size of the population after a step *)

Lemma breeds_length {V} (call : V -> M World V) w vs offspring w' :
  breeds call w vs offspring w' -> (length offspring <= length vs)%nat.
Proof. intros B. apply breeds_parents in B. apply B. Qed.

(** X2. When [update()] returns, the returned size is at least the number of
    particles that survived clearance and at most twice that number, hence at
    most twice the size before the step: a population can at most double in
    one step. This holds for both host classes, every population and every
    outcome of the draws. *)
Theorem update_at_most_doubles :
  (forall (self : Patient SimpleVirus) (w : World) (n : nat),
      fst (Patient_update (self, w)) = Returned n ->
      (length (survivors_of (rnd w) (cursor w) (viruses self)) <= n
       <= 2 * length (survivors_of (rnd w) (cursor w) (viruses self)))%nat /\
      (n <= 2 * length (viruses self))%nat /\
      n = getTotalPop (fst (snd (Patient_update (self, w))))) /\
  (forall (self : TreatedPatient) (w : World) (n : nat),
      fst (TreatedPatient_update (self, w)) = Returned n ->
      (length (survivors_of (rnd w) (cursor w) (viruses (patient self))) <= n
       <= 2 * length (survivors_of (rnd w) (cursor w)
                        (viruses (patient self))))%nat /\
      (n <= 2 * length (viruses (patient self)))%nat /\
      n = getTotalPop (patient (fst (snd (TreatedPatient_update (self, w)))))).
Proof.
  split.
  - intros self w n R.
    pose proof (survivors_of_length (rnd w) (viruses self) (cursor w)) as Ls.
    destruct (Patient_update_cases self w)
      as (s & L & _ & _ & [[E0 E]|[N0 (o & w' & E & B)]]);
      rewrite E in R |- *; simpl in R; [discriminate|].
    inversion R; subst n. apply breeds_length in B.
    unfold getTotalPop. simpl. rewrite length_app, <- L. lia.
  - intros self w n R.
    pose proof (survivors_of_length (rnd w) (viruses (patient self)) (cursor w))
      as Ls.
    destruct (TreatedPatient_update_cases self w)
      as (s & L & _ & _ & [[E0 E]|[N0 (o & w' & E & B)]]);
      rewrite E in R |- *; simpl in R; [discriminate|].
    inversion R; subst n. apply breeds_length in B.
    unfold getTotalPop. simpl. rewrite length_app, <- L. lia.
Qed.

Lemma update_at_most_doubles_witness :
  fst (Patient_update (patient_a, world_a)) = Returned 2%nat /\
  (length (survivors_of (rnd world_a) (cursor world_a) (viruses patient_a)) <= 2
   <= 2 * length (survivors_of (rnd world_a) (cursor world_a)
                    (viruses patient_a)))%nat /\
  (2 <= 2 * length (viruses patient_a))%nat /\
  2%nat = getTotalPop (fst (snd (Patient_update (patient_a, world_a)))).
Proof.
  assert (H : fst (Patient_update (patient_a, world_a)) = Returned 2%nat)
    by reflexivity.
  split; [exact H|].
  exact (proj1 update_at_most_doubles patient_a world_a 2%nat H).
Defined.

(** ** No growth at or above capacity *)

Lemma breeds_all_raise {V} (call : V -> M World V) (inv : World -> Prop)
    w vs offspring w' :
  breeds call w vs offspring w' ->
  (forall s w0, In s vs -> inv w0 ->
     exists w1, call s w0 = (Raised NoChildException, w1) /\ inv w1) ->
  inv w ->
  offspring = [] /\ inv w'.
Proof.
  induction 1 as [w|w s c w1 rest o w2 E B IH|w s w1 rest o w2 E B IH];
    intros Hall Hinv.
  - split; [reflexivity|assumption].
  - destruct (Hall s w (or_introl eq_refl) Hinv) as (w1' & E' & _).
    rewrite E' in E. discriminate.
  - destruct (Hall s w (or_introl eq_refl) Hinv) as (w1' & E' & Hinv').
    rewrite E' in E. inversion E; subst w1'.
    apply IH; [|assumption].
    intros s' w0 Hs'. apply Hall. right; assumption.
Qed.

Lemma positive_draws_skip (n : nat) (w : World) :
  positive_draws w -> positive_draws (skip n w).
Proof. intros P i. apply P. Qed.

Lemma density_at_capacity (n : nat) (maxPop : Z) :
  (0 < maxPop)%Z -> (maxPop <= Z.of_nat n)%Z ->
  1 <= inject_Z (Z.of_nat n) / inject_Z maxPop.
Proof.
  intros Hpos Hle. apply Qle_shift_div_l.
  - change (inject_Z 0 < inject_Z maxPop). rewrite <- Zlt_Qlt. exact Hpos.
  - rewrite Qmult_1_l, <- Zle_Qle. exact Hle.
Qed.

Lemma full_no_child_simple (self : SimpleVirus) (popDensity : Q) (w : World) :
  0 <= maxBirthProb self -> 1 <= popDensity -> positive_draws w ->
  exists w1,
    SimpleVirus_reproduce self popDensity w = (Raised NoChildException, w1) /\
    positive_draws w1.
Proof.
  intros Hb Hd P. exists (skip 1 w). split; [|apply positive_draws_skip, P].
  rewrite SimpleVirus_reproduce_eq, Qle_bool_false; [reflexivity|].
  pose proof (P (cursor w)).
  assert (maxBirthProb self * (1 - popDensity) <= 0) by nra. lra.
Qed.

Lemma full_no_child_resistant (self : ResistantVirus) (popDensity : Q)
    (activeDrugs : list string) (w : World) :
  0 <= maxBirthProb (base self) -> 1 <= popDensity -> positive_draws w ->
  exists w1,
    ResistantVirus_reproduce self popDensity activeDrugs w
    = (Raised NoChildException, w1) /\
    positive_draws w1.
Proof.
  intros Hb Hd P. destruct (gate_blocks self activeDrugs) eqn:G.
  - exists w. split; [apply reproduce_blocked; assumption|assumption].
  - exists (skip 1 w). split; [|apply positive_draws_skip, P].
    apply reproduce_unlucky; [assumption|]. apply Qle_bool_false.
    pose proof (P (cursor w)).
    assert (maxBirthProb (base self) * (1 - popDensity) <= 0) by nra. lra.
Qed.

(** X3. If no draw is exactly [0.0], all [maxBirthProb] are [>= 0], and the
    particles that survive clearance are at least [maxPop > 0] many, then
    [update()] produces no offspring: it returns the number of survivors, and
    every particle of the new population was in the old one. This holds for
    both host classes. *)
Theorem no_growth_at_capacity :
  (forall (self : Patient SimpleVirus) (w : World),
      positive_draws w ->
      (forall v, In v (viruses self) -> 0 <= maxBirthProb v) ->
      (0 < maxPop self)%Z ->
      (maxPop self
       <= Z.of_nat (length (survivors_of (rnd w) (cursor w) (viruses self))))%Z ->
      fst (Patient_update (self, w))
      = Returned (length (survivors_of (rnd w) (cursor w) (viruses self))) /\
      incl (viruses (fst (snd (Patient_update (self, w))))) (viruses self)) /\
  (forall (self : TreatedPatient) (w : World),
      positive_draws w ->
      (forall v, In v (viruses (patient self)) -> 0 <= maxBirthProb (base v)) ->
      (0 < maxPop (patient self))%Z ->
      (maxPop (patient self)
       <= Z.of_nat (length (survivors_of (rnd w) (cursor w)
                              (viruses (patient self)))))%Z ->
      fst (TreatedPatient_update (self, w))
      = Returned (length (survivors_of (rnd w) (cursor w)
                            (viruses (patient self)))) /\
      incl (viruses (patient (fst (snd (TreatedPatient_update (self, w))))))
        (viruses (patient self))).
Proof.
  split.
  - intros self w P Hb Hpos Hcap.
    destruct (Patient_update_cases self w)
      as (s & L & I & _ & [[E0 _]|[_ (o & w' & E & B)]]); [lia|].
    rewrite <- L in Hcap. pose proof (density_at_capacity _ Hpos Hcap) as Hd.
    destruct (breeds_all_raise positive_draws B) as [-> _].
    + intros v w0 Hv P0. apply full_no_child_simple; auto.
    + apply positive_draws_skip, P.
    + rewrite E. simpl. rewrite app_nil_r, L. split; [reflexivity|exact I].
  - intros self w P Hb Hpos Hcap.
    destruct (TreatedPatient_update_cases self w)
      as (s & L & I & _ & [[E0 _]|[_ (o & w' & E & B)]]); [lia|].
    rewrite <- L in Hcap. pose proof (density_at_capacity _ Hpos Hcap) as Hd.
    destruct (breeds_all_raise positive_draws B) as [-> _].
    + intros v w0 Hv P0. apply full_no_child_resistant; auto.
    + apply positive_draws_skip, P.
    + rewrite E. simpl. rewrite app_nil_r, L. split; [reflexivity|exact I].
Qed.

Lemma no_growth_at_capacity_witness :
  (positive_draws world_fifth /\
   (forall v, In v (viruses patient_full) -> 0 <= maxBirthProb v) /\
   (0 < maxPop patient_full)%Z /\
   (maxPop patient_full
    <= Z.of_nat (length (survivors_of (rnd world_fifth) (cursor world_fifth)
                           (viruses patient_full))))%Z) /\
  fst (Patient_update (patient_full, world_fifth))
  = Returned (length (survivors_of (rnd world_fifth) (cursor world_fifth)
                        (viruses patient_full))) /\
  incl (viruses (fst (snd (Patient_update (patient_full, world_fifth)))))
    (viruses patient_full).
Proof.
  assert (H1 : forall v, In v (viruses patient_full) -> 0 <= maxBirthProb v).
  { simpl. intros v [<-|[<-|[]]]; simpl; unfold Qle; simpl; lia. }
  assert (H2 : (0 < maxPop patient_full)%Z) by (simpl; lia).
  assert (H3 : (maxPop patient_full
                <= Z.of_nat (length (survivors_of (rnd world_fifth)
                                       (cursor world_fifth)
                                       (viruses patient_full))))%Z)
    by (vm_compute; discriminate).
  split; [repeat split; solve [assumption | apply positive_world_fifth]|].
  exact (proj1 no_growth_at_capacity patient_full world_fifth
           positive_world_fifth H1 H2 H3).
Defined.

(** ** Mutation at the extremes *)

Lemma mutated_always (p : Q) (rnd : nat -> Q) (d : dict) :
  (forall i, Qle_bool (rnd i) p = true) ->
  forall i, mutated p rnd i d = negated d.
Proof.
  intros A. induction d as [|[k v] d IH]; intros i; simpl; [reflexivity|].
  rewrite A, IH. reflexivity.
Qed.

Lemma mutated_never (p : Q) (rnd : nat -> Q) (d : dict) :
  (forall i, Qle_bool (rnd i) p = false) ->
  forall i, mutated p rnd i d = d.
Proof.
  intros A. induction d as [|[k v] d IH]; intros i; simpl; [reflexivity|].
  rewrite A, IH. reflexivity.
Qed.

(** X4. With [mutProb = 1] and draws in [[0,1)], every offspring of a
    resistant virus carries the exact negation of each of its parent's
    resistance traits (the parent's dictionary having distinct keys). *)
Theorem certain_mutation_negates
    (self child : ResistantVirus) (popDensity : Q) (activeDrugs : list string)
    (w w' : World) :
  uniform_draws w ->
  mutProb self == 1 ->
  dict_ok (resistances self) ->
  ResistantVirus_reproduce self popDensity activeDrugs w = (Returned child, w') ->
  resistances child = negated (resistances self).
Proof.
  intros U M ok E. apply ResistantVirus_offspring in E.
  destruct E as (_ & _ & _ & D). rewrite (D ok). apply mutated_always.
  intros i. apply Qle_bool_iff. rewrite M. apply Qlt_le_weak, U.
Qed.

Lemma certain_mutation_negates_witness :
  (uniform_draws world_a /\ mutProb mutant_one == 1 /\
   dict_ok (resistances mutant_one) /\
   ResistantVirus_reproduce mutant_one 0 [] world_a
   = (Returned (mkResistantVirus (mkSimpleVirus 100 1 (1 # 10))
                  [("A"%string, false); ("B"%string, true)] 1),
      mkWorld (rnd world_a) 3 101)) /\
  [("A"%string, false); ("B"%string, true)] = negated (resistances mutant_one).
Proof.
  assert (H1 : mutProb mutant_one == 1) by reflexivity.
  assert (H2 : dict_ok (resistances mutant_one)).
  { unfold dict_ok. simpl. repeat constructor; simpl; intuition discriminate. }
  assert (H3 : ResistantVirus_reproduce mutant_one 0 [] world_a
               = (Returned (mkResistantVirus (mkSimpleVirus 100 1 (1 # 10))
                              [("A"%string, false); ("B"%string, true)] 1),
                  mkWorld (rnd world_a) 3 101)) by reflexivity.
  split; [repeat split; solve [assumption | apply uniform_world_a]|].
  exact (@certain_mutation_negates mutant_one _ 0 [] world_a _
           uniform_world_a H1 H2 H3).
Defined.

(** X5. With [mutProb <= 0] and no draw exactly [0.0], every offspring of a
    resistant virus has exactly its parent's resistance traits. *)
Theorem no_mutation_copies
    (self child : ResistantVirus) (popDensity : Q) (activeDrugs : list string)
    (w w' : World) :
  positive_draws w ->
  mutProb self <= 0 ->
  dict_ok (resistances self) ->
  ResistantVirus_reproduce self popDensity activeDrugs w = (Returned child, w') ->
  resistances child = resistances self.
Proof.
  intros P M ok E. apply ResistantVirus_offspring in E.
  destruct E as (_ & _ & _ & D). rewrite (D ok). apply mutated_never.
  intros i. apply Qle_bool_false. pose proof (P i). lra.
Qed.

Lemma no_mutation_copies_witness :
  (positive_draws world_fifth /\ mutProb steady <= 0 /\
   dict_ok (resistances steady) /\
   ResistantVirus_reproduce steady 0 [] world_fifth
   = (Returned (mkResistantVirus (mkSimpleVirus 100 1 (1 # 10))
                  [("A"%string, true); ("B"%string, false)] 0),
      mkWorld (rnd world_fifth) 3 101)) /\
  [("A"%string, true); ("B"%string, false)] = resistances steady.
Proof.
  assert (H1 : mutProb steady <= 0) by (simpl; unfold Qle; simpl; lia).
  assert (H2 : dict_ok (resistances steady)).
  { unfold dict_ok. simpl. repeat constructor; simpl; intuition discriminate. }
  assert (H3 : ResistantVirus_reproduce steady 0 [] world_fifth
               = (Returned (mkResistantVirus (mkSimpleVirus 100 1 (1 # 10))
                              [("A"%string, true); ("B"%string, false)] 0),
                  mkWorld (rnd world_fifth) 3 101)) by reflexivity.
  split; [repeat split; solve [assumption | apply positive_world_fifth]|].
  exact (@no_mutation_copies steady _ 0 [] world_fifth _
           positive_world_fifth H1 H2 H3).
Defined.

(** ** When [reproduce] returns a child *)

Lemma gate_blocks_resists_all (self : ResistantVirus) (activeDrugs : list string) :
  gate_blocks self activeDrugs = negb (resists_all self activeDrugs).
Proof.
  unfold gate_blocks, resists_all.
  induction activeDrugs as [|d ds IH]; simpl; [reflexivity|].
  rewrite IH, py_not_resistant_to, negb_andb. reflexivity.
Qed.

(** X6. [ResistantVirus.reproduce] returns a child exactly when the particle
    is resistant (stored value [True]) to every active drug and the draw is
    [<= maxBirthProb * (1 - popDensity)]; in every other case it raises
    [NoChildException], and nothing else. *)
Theorem reproduce_returns_iff
    (self : ResistantVirus) (popDensity : Q) (activeDrugs : list string)
    (w : World) :
  ((exists child w',
       ResistantVirus_reproduce self popDensity activeDrugs w
       = (Returned child, w'))
   <-> resists_all self activeDrugs = true /\
       Qle_bool (rnd w (cursor w))
         (maxBirthProb (base self) * (1 - popDensity)) = true) /\
  ((exists w',
       ResistantVirus_reproduce self popDensity activeDrugs w
       = (Raised NoChildException, w'))
   <-> ~ (resists_all self activeDrugs = true /\
          Qle_bool (rnd w (cursor w))
            (maxBirthProb (base self) * (1 - popDensity)) = true)).
Proof.
  pose proof (gate_blocks_resists_all self activeDrugs) as G.
  destruct (resists_all self activeDrugs) eqn:R; simpl in G.
  - destruct (Qle_bool (rnd w (cursor w))
                (maxBirthProb (base self) * (1 - popDensity))) eqn:L.
    + destruct (@reproduce_lucky self popDensity activeDrugs w G L)
        as (d' & E & _).
      rewrite E. split; split.
      * auto.
      * intros _. eauto.
      * intros (w' & C). discriminate.
      * intros N. exfalso. apply N. auto.
    + rewrite (@reproduce_unlucky self popDensity activeDrugs w G L).
      split; split.
      * intros (c & w' & C). discriminate.
      * intros [_ C]. discriminate.
      * intros _ [_ C]. discriminate.
      * intros _. eauto.
  - rewrite (@reproduce_blocked self popDensity activeDrugs w G).
    split; split.
    + intros (c & w' & C). discriminate.
    + intros [C _]. discriminate.
    + intros _ [C _]. discriminate.
    + intros _. eauto.
Qed.

(** ** Treatment that no particle resists *)

Lemma filter_length_0 {A} (f : A -> bool) (l : list A) :
  length (filter f l) = 0%nat <-> forall x, In x l -> f x = false.
Proof.
  induction l as [|a l IH]; simpl.
  - split; [intros _ x []|reflexivity].
  - destruct (f a) eqn:E; simpl.
    + split; [discriminate|]. intros Hall.
      rewrite (Hall a (or_introl eq_refl)) in E. discriminate.
    + rewrite IH. split.
      * intros Hall x [<-|Hx]; auto.
      * intros Hall x Hx. apply Hall. right; assumption.
Qed.

Lemma getResistPop_0 (self : TreatedPatient) (drugs : list string) :
  drugs <> [] ->
  (getResistPop self drugs = 0%nat
   <-> forall v, In v (viruses (patient self)) -> resists_all v drugs = false).
Proof.
  intros Hne. rewrite getResistPop_eq.
  destruct drugs as [|d ds]; [contradiction|]. apply filter_length_0.
Qed.

Lemma blocked_step (self : TreatedPatient) (w : World) :
  (forall v, In v (viruses (patient self)) ->
             resists_all v (prescriptions self) = false) ->
  let self' := fst (snd (TreatedPatient_update (self, w))) in
  incl (viruses (patient self')) (viruses (patient self)) /\
  (length (viruses (patient self')) <= length (viruses (patient self)))%nat /\
  prescriptions self' = prescriptions self.
Proof.
  intros Hall.
  pose proof (survivors_of_length (rnd w) (viruses (patient self)) (cursor w))
    as Ls.
  destruct (TreatedPatient_update_cases self w)
    as (s & L & I & _ & [[E0 E]|[_ (o & w' & E & B)]]); rewrite E; simpl.
  - split; [exact I|]. split; [lia|reflexivity].
  - destruct (breeds_all_raise (fun _ => True) B) as [-> _]; [|exact Logic.I|].
    + intros v w0 Hv _. exists w0. split; [|exact Logic.I].
      apply reproduce_blocked. rewrite gate_blocks_resists_all.
      rewrite (Hall v (I v Hv)). reflexivity.
    + rewrite app_nil_r. split; [exact I|]. split; [lia|reflexivity].
Qed.

(** X7. If drugs are prescribed and [getResistPop] of the prescribed drugs is
    [0], then over any number of [update()] calls the host gains no particle:
    every particle present afterwards was present at the start, the
    population size never exceeds the initial one, and [getResistPop] of the
    prescribed drugs is still [0]. *)
Theorem unresisted_treatment_never_grows
    (self : TreatedPatient) (w : World) (n : nat) :
  prescriptions self <> [] ->
  getResistPop self (prescriptions self) = 0%nat ->
  let self' := fst (run (repeat OpUpdate n) (self, w)) in
  incl (viruses (patient self')) (viruses (patient self)) /\
  (getTotalPop (patient self') <= getTotalPop (patient self))%nat /\
  getResistPop self' (getPrescriptions self') = 0%nat.
Proof.
  intros Hne H0. simpl.
  assert (G : forall n self0 w0,
             prescriptions self0 = prescriptions self ->
             incl (viruses (patient self0)) (viruses (patient self)) ->
             (length (viruses (patient self0))
              <= length (viruses (patient self)))%nat ->
             let self' := fst (run (repeat OpUpdate n) (self0, w0)) in
             incl (viruses (patient self')) (viruses (patient self)) /\
             (length (viruses (patient self'))
              <= length (viruses (patient self)))%nat /\
             prescriptions self' = prescriptions self).
  { clear n w. induction n as [|n IH]; intros self0 w0 Ep I0 L0; simpl.
    - auto.
    - unfold run in *. simpl.
      destruct (TreatedPatient_update (self0, w0)) as [r [self1 w1]] eqn:E.
      simpl.
      assert (Hall : forall v, In v (viruses (patient self0)) ->
                               resists_all v (prescriptions self0) = false).
      { intros v Hv. rewrite Ep.
        apply (proj1 (getResistPop_0 self Hne) H0). apply I0, Hv. }
      pose proof (blocked_step self0 w0 Hall) as S1. rewrite E in S1.
      simpl in S1. destruct S1 as (I1 & L1 & P1).
      apply IH.
      + rewrite P1. exact Ep.
      + intros a Ha. apply I0, I1, Ha.
      + lia. }
  destruct (G n self w eq_refl (incl_refl _) (le_n _)) as (I & L & P).
  split; [exact I|]. split; [exact L|].
  unfold getPrescriptions. rewrite P.
  apply (getResistPop_0 _ Hne). intros v Hv.
  apply (proj1 (getResistPop_0 self Hne) H0). apply I, Hv.
Qed.

Lemma unresisted_treatment_never_grows_witness :
  (prescriptions treated_sensitive <> [] /\
   getResistPop treated_sensitive (prescriptions treated_sensitive) = 0%nat) /\
  incl (viruses (patient (fst (run (repeat OpUpdate 3)
                                 (treated_sensitive, world_fifth)))))
    (viruses (patient treated_sensitive)) /\
  (getTotalPop (patient (fst (run (repeat OpUpdate 3)
                                (treated_sensitive, world_fifth))))
   <= getTotalPop (patient treated_sensitive))%nat /\
  getResistPop (fst (run (repeat OpUpdate 3) (treated_sensitive, world_fifth)))
    (getPrescriptions (fst (run (repeat OpUpdate 3)
                              (treated_sensitive, world_fifth))))
  = 0%nat.
Proof.
  assert (H1 : prescriptions treated_sensitive <> []) by (simpl; discriminate).
  assert (H2 : getResistPop treated_sensitive (prescriptions treated_sensitive)
               = 0%nat) by reflexivity.
  split; [split; assumption|].
  exact (@unresisted_treatment_never_grows treated_sensitive world_fifth 3 H1 H2).
Defined.

(** ** The prescriptions as a set *)

Lemma apply_operation_members (op : operation) (st : TreatedPatient * World)
    (d : string) :
  In d (prescriptions (fst (apply_operation op st)))
  <-> In d (prescriptions (fst st)) \/ op = OpAddPrescription d.
Proof.
  destruct st as [self w]. destruct op; simpl.
  - rewrite addPrescription_eq.
    destruct (py_in drug (prescriptions self)) eqn:E; simpl.
    + split; [auto|]. intros [Hd|Hd]; [assumption|].
      inversion Hd; subst. apply py_in_In. assumption.
    + rewrite in_app_iff. simpl. split.
      * intros [Hd|[->|[]]]; auto.
      * intros [Hd|Hd]; [auto|]. inversion Hd; subst. auto.
  - rewrite TreatedPatient_update_prescriptions.
    split; [auto|]. intros [Hd|Hd]; [assumption|discriminate].
  - split; [auto|]. intros [Hd|Hd]; [assumption|discriminate].
  - split; [auto|]. intros [Hd|Hd]; [assumption|discriminate].
  - split; [auto|]. intros [Hd|Hd]; [assumption|discriminate].
Qed.

Lemma apply_operation_NoDup (op : operation) (st : TreatedPatient * World) :
  NoDup (prescriptions (fst st)) ->
  NoDup (prescriptions (fst (apply_operation op st))).
Proof.
  destruct st as [self w]. destruct op; simpl; auto.
  - rewrite addPrescription_eq.
    destruct (py_in drug (prescriptions self)) eqn:E; simpl; [auto|].
    intros N. apply NoDup_app; [assumption|repeat constructor; auto|].
    intros a Ha [<-|[]]. apply py_in_In in Ha. congruence.
  - rewrite TreatedPatient_update_prescriptions. auto.
Qed.

(** X8. Starting from a freshly constructed [TreatedPatient], after any
    sequence of operations the prescription list holds no drug twice, and it
    holds exactly the drugs that some [addPrescription] call of the sequence
    named: [update()] and the queries add none and remove none. *)
Theorem prescriptions_are_the_added_drugs
    (viruses : list ResistantVirus) (maxPop : Z) (w : World)
    (ops : list operation) :
  exists self0,
    TreatedPatient_init viruses maxPop = Returned self0 /\
    NoDup (getPrescriptions (fst (run ops (self0, w)))) /\
    forall d,
      In d (getPrescriptions (fst (run ops (self0, w))))
      <-> In (OpAddPrescription d) ops.
Proof.
  exists (mkTreatedPatient (mkPatient viruses maxPop) []).
  split; [reflexivity|]. unfold getPrescriptions.
  assert (G : forall ops st,
             NoDup (prescriptions (fst st)) ->
             NoDup (prescriptions (fst (run ops st))) /\
             forall d, In d (prescriptions (fst (run ops st)))
                       <-> In d (prescriptions (fst st))
                           \/ In (OpAddPrescription d) ops).
  { clear. induction ops as [|op ops IH]; intros st N; simpl.
    - split; [assumption|]. intros d. tauto.
    - unfold run in *. simpl.
      destruct (IH (apply_operation op st) (apply_operation_NoDup op st N))
        as (N' & M').
      split; [exact N'|]. intros d. rewrite M', apply_operation_members.
      split.
      + intros [[H|H]|H]; auto.
      + intros [H|[H|H]]; auto. }
  destruct (G ops (mkTreatedPatient (mkPatient viruses maxPop) [], w))
    as (N & M); [constructor|].
  split; [exact N|]. intros d. rewrite M. simpl. tauto.
Qed.

(** ** [getResistPop] as a function of the drug list *)

Lemma resists_all_incl (v : ResistantVirus) (drugs drugs' : list string) :
  incl drugs drugs' -> resists_all v drugs' = true -> resists_all v drugs = true.
Proof.
  unfold resists_all. rewrite !forallb_forall. intros I A d Hd. apply A, I, Hd.
Qed.

Lemma filter_length_le {A} (f g : A -> bool) (l : list A) :
  (forall x, f x = true -> g x = true) ->
  (length (filter f l) <= length (filter g l))%nat.
Proof.
  intros Hfg. induction l as [|a l IH]; simpl; [lia|].
  destruct (f a) eqn:E.
  - rewrite (Hfg a E). simpl. lia.
  - destruct (g a); simpl; lia.
Qed.

Lemma filter_length_total {A} (f : A -> bool) (l : list A) :
  (length (filter f l) <= length l)%nat.
Proof.
  induction l as [|a l IH]; simpl; [lia|]. destruct (f a); simpl; lia.
Qed.

(** X9. [getResistPop] never exceeds [getTotalPop]; on non-empty drug lists
    it depends only on which drugs are listed (order and repetitions do not
    matter); and listing more drugs never raises the count. *)
Theorem getResistPop_drug_list (self : TreatedPatient) :
  (forall drugs,
      (getResistPop self drugs <= getTotalPop (patient self))%nat) /\
  (forall drugs drugs',
      drugs <> [] -> incl drugs drugs' ->
      (getResistPop self drugs' <= getResistPop self drugs)%nat) /\
  (forall drugs drugs',
      drugs <> [] -> incl drugs drugs' -> incl drugs' drugs ->
      getResistPop self drugs' = getResistPop self drugs).
Proof.
  assert (Mono : forall drugs drugs',
             drugs <> [] -> incl drugs drugs' ->
             (getResistPop self drugs' <= getResistPop self drugs)%nat).
  { intros drugs drugs' Hne I. rewrite !getResistPop_eq.
    destruct drugs as [|d ds]; [contradiction|].
    destruct drugs' as [|d' ds']; [lia|].
    apply filter_length_le. intros v. apply resists_all_incl. exact I. }
  split; [|split].
  - intros drugs. rewrite getResistPop_eq. unfold getTotalPop.
    destruct drugs; [lia|apply filter_length_total].
  - exact Mono.
  - intros drugs drugs' Hne I I'.
    assert (Hne' : drugs' <> []).
    { destruct drugs as [|d ds]; [contradiction|].
      intros ->. destruct (I d (or_introl eq_refl)). }
    pose proof (Mono drugs drugs' Hne I). pose proof (Mono drugs' drugs Hne' I').
    lia.
Qed.

Lemma getResistPop_drug_list_witness :
  (["A"%string] <> [] /\ incl ["A"%string] ["B"%string; "A"%string] /\
   incl ["A"%string; "B"%string] ["B"%string; "A"%string; "B"%string] /\
   incl ["B"%string; "A"%string; "B"%string] ["A"%string; "B"%string]) /\
  (getResistPop treated_a ["B"%string; "A"%string]
   <= getResistPop treated_a ["A"%string])%nat /\
  getResistPop treated_a ["B"%string; "A"%string; "B"%string]
  = getResistPop treated_a ["A"%string; "B"%string].
Proof.
  assert (H1 : ["A"%string] <> []) by discriminate.
  assert (H2 : incl ["A"%string] ["B"%string; "A"%string])
    by (intros x [<-|[]]; simpl; auto).
  assert (H3 : incl ["A"%string; "B"%string]
                 ["B"%string; "A"%string; "B"%string])
    by (intros x [<-|[<-|[]]]; simpl; auto).
  assert (H4 : incl ["B"%string; "A"%string; "B"%string]
                 ["A"%string; "B"%string])
    by (intros x [<-|[<-|[<-|[]]]]; simpl; auto).
  assert (H5 : ["A"%string; "B"%string] <> []) by discriminate.
  split; [repeat split; assumption|].
  destruct (getResistPop_drug_list treated_a) as (_ & G2 & G3).
  split; [exact (G2 _ _ H1 H2)|exact (G3 _ _ H5 H3 H4)].
Defined.

(** ** An extinct population *)

Lemma Patient_update_extinct (maxPop : Z) (w : World) :
  snd (Patient_update (mkPatient [] maxPop, w)) = (mkPatient [] maxPop, w) /\
  (maxPop <> 0%Z ->
   fst (Patient_update (mkPatient [] maxPop, w)) = Returned 0%nat).
Proof.
  unfold Patient_update, bind, get_self, set_self, lift, true_div, getViruses,
    getTotalPop, getMaxPop, ret, raise. simpl.
  destruct (Z.eqb_spec maxPop 0) as [E|N]; simpl.
  - split; [reflexivity|contradiction].
  - split; reflexivity.
Qed.

Lemma TreatedPatient_update_extinct (maxPop : Z) (drugs : list string)
    (w : World) :
  snd (TreatedPatient_update (mkTreatedPatient (mkPatient [] maxPop) drugs, w))
  = (mkTreatedPatient (mkPatient [] maxPop) drugs, w) /\
  (maxPop <> 0%Z ->
   fst (TreatedPatient_update (mkTreatedPatient (mkPatient [] maxPop) drugs, w))
   = Returned 0%nat).
Proof.
  unfold TreatedPatient_update, bind, get_self, set_self, lift, true_div,
    getViruses, getTotalPop, getMaxPop, ret, raise. simpl.
  destruct (Z.eqb_spec maxPop 0) as [E|N]; simpl.
  - split; [reflexivity|contradiction].
  - split; reflexivity.
Qed.

(** X10. Extinction is final. On a host with no particle, [update()] returns
    [0] (when [maxPop <> 0]), consumes no random draw and creates no object;
    after any number of steps, and for a treated host after any sequence of
    operations, the population is still empty and the random source
    untouched. *)
Theorem extinct_stays_extinct :
  (forall (maxPop : Z) (w : World),
      maxPop <> 0%Z ->
      Patient_update (mkPatient [] maxPop, w)
      = (Returned 0%nat, (mkPatient [] maxPop, w))) /\
  (forall (maxPop : Z) (w : World) (n : nat),
      Patient_steps n (mkPatient [] maxPop, w) = (mkPatient [] maxPop, w)) /\
  (forall (maxPop : Z) (drugs : list string) (w : World) (ops : list operation),
      viruses (patient (fst (run ops
         (mkTreatedPatient (mkPatient [] maxPop) drugs, w)))) = [] /\
      snd (run ops (mkTreatedPatient (mkPatient [] maxPop) drugs, w)) = w).
Proof.
  split; [|split].
  - intros mp w N. destruct (Patient_update_extinct mp w) as [E1 E2].
    specialize (E2 N).
    destruct (Patient_update (mkPatient [] mp, w)) as [r st]. simpl in *.
    congruence.
  - intros mp w n. induction n as [|n IH]; simpl; [reflexivity|].
    rewrite (proj1 (Patient_update_extinct mp w)). exact IH.
  - intros mp drugs w ops. revert drugs.
    induction ops as [|op ops IH]; intros drugs; [split; reflexivity|].
    unfold run in *. simpl. destruct op; simpl; try apply IH.
    + rewrite addPrescription_eq. simpl.
      destruct (py_in drug drugs); simpl; apply IH.
    + rewrite (proj1 (TreatedPatient_update_extinct mp drugs w)). apply IH.
Qed.

Lemma extinct_stays_extinct_witness :
  (10 <> 0)%Z /\
  Patient_update (mkPatient [] 10, world_a)
  = (Returned 0%nat, (mkPatient [] 10, world_a)).
Proof.
  assert (H : (10 <> 0)%Z) by lia.
  split; [exact H|].
  exact (proj1 extinct_stays_extinct 10%Z world_a H).
Defined.

(** ** Offspring are new objects *)

Lemma breeds_allocation {V} `{Particle V} (call : V -> M World V)
    w vs offspring w' :
  call_allocates call ->
  breeds call w vs offspring w' ->
  map oid_of offspring = seq (fresh w) (length offspring) /\
  fresh w' = (fresh w + length offspring)%nat /\
  rnd w' = rnd w /\ (cursor w <= cursor w')%nat.
Proof.
  intros A.
  induction 1 as [w|w s c w1 rest o w2 E B IH|w s w1 rest o w2 E B IH].
  - simpl. repeat split; lia.
  - pose proof (A s w) as As. rewrite E in As.
    destruct As as (Ec & Ef & Er & Ecur). destruct IH as (IHo & IHf & IHr & IHc).
    simpl. rewrite Ec, IHo, Ef. repeat split; try lia; congruence.
  - pose proof (A s w) as As. rewrite E in As.
    destruct As as (Ef & Er & Ecur). destruct IH as (IHo & IHf & IHr & IHc).
    rewrite IHo, Ef. repeat split; try lia; congruence.
Qed.

Lemma SimpleVirus_reproduce_allocates (popDensity : Q) :
  call_allocates (fun v => SimpleVirus_reproduce v popDensity).
Proof.
  intros s w. rewrite SimpleVirus_reproduce_eq.
  destruct (Qle_bool _ _); simpl; repeat split; lia.
Qed.

Lemma ResistantVirus_reproduce_allocates (popDensity : Q)
    (activeDrugs : list string) :
  call_allocates (fun v => ResistantVirus_reproduce v popDensity activeDrugs).
Proof.
  intros s w. destruct (gate_blocks s activeDrugs) eqn:G.
  - rewrite reproduce_blocked by assumption. repeat split; lia.
  - destruct (Qle_bool (rnd w (cursor w))
                (maxBirthProb (base s) * (1 - popDensity))) eqn:L.
    + destruct (@reproduce_lucky s popDensity activeDrugs w G L) as (d' & E & _).
      rewrite E. simpl. repeat split; lia.
    + rewrite reproduce_unlucky by assumption. simpl. repeat split; lia.
Qed.

Lemma heap_ok_commit {V} `{Particle V} (call : V -> M World V)
    (vs survivors offspring : list V) (w w' : World) (n : nat) :
  call_allocates call ->
  heap_ok vs w ->
  survivors = survivors_of (rnd w) (cursor w) vs ->
  breeds call (skip n w) survivors offspring w' ->
  heap_ok (survivors ++ offspring) w'.
Proof.
  intros A [N B] -> Br.
  destruct (breeds_allocation A Br) as (Eo & Ef & _ & _). simpl in Eo, Ef.
  assert (Bs : forall v, In v (survivors_of (rnd w) (cursor w) vs) ->
                         (oid_of v < fresh w)%nat).
  { intros v Hv. apply B. eapply survivors_of_incl; eassumption. }
  split.
  - rewrite map_app, Eo. apply NoDup_app.
    + apply survivors_of_NoDup, N.
    + apply seq_NoDup.
    + intros a Ha Hs. apply in_map_iff in Ha. destruct Ha as (v & <- & Hv).
      apply in_seq in Hs. specialize (Bs v Hv). lia.
  - intros v Hv. apply in_app_or in Hv. destruct Hv as [Hv|Hv].
    + specialize (Bs v Hv). lia.
    + assert (Hin : In (oid_of v) (map oid_of offspring))
        by (apply in_map; assumption).
      rewrite Eo in Hin. apply in_seq in Hin. lia.
Qed.

Lemma heap_ok_survivors {V} `{Particle V} (vs : list V) (w : World) (n : nat) :
  heap_ok vs w -> heap_ok (survivors_of (rnd w) (cursor w) vs) (skip n w).
Proof.
  intros [N B]. split; [apply survivors_of_NoDup, N|].
  intros v Hv. simpl. apply B. eapply survivors_of_incl; eassumption.
Qed.

(** X11. [update()] keeps the population free of aliases: if no object is
    listed twice and every identity in use is older than the next one to be
    allocated, the same holds after the step, whether it returns or raises.
    Offspring are newly created objects, never the parent itself or an
    object already in the population. *)
Theorem update_keeps_heap_ok :
  (forall (self : Patient SimpleVirus) (w : World),
      heap_ok (viruses self) w ->
      heap_ok (viruses (fst (snd (Patient_update (self, w)))))
        (snd (snd (Patient_update (self, w))))) /\
  (forall (self : TreatedPatient) (w : World),
      heap_ok (viruses (patient self)) w ->
      heap_ok (viruses (patient (fst (snd (TreatedPatient_update (self, w))))))
        (snd (snd (TreatedPatient_update (self, w))))).
Proof.
  split.
  - intros self w Hk.
    destruct (Patient_update_cases self w)
      as (s & _ & _ & X & [[_ E]|[_ (o & w' & E & B)]]); rewrite E; simpl.
    + rewrite (X (proj1 Hk)). apply heap_ok_survivors, Hk.
    + eapply heap_ok_commit; [|exact Hk|exact (X (proj1 Hk))|exact B].
      apply SimpleVirus_reproduce_allocates.
  - intros self w Hk.
    destruct (TreatedPatient_update_cases self w)
      as (s & _ & _ & X & [[_ E]|[_ (o & w' & E & B)]]); rewrite E; simpl.
    + rewrite (X (proj1 Hk)). apply heap_ok_survivors, Hk.
    + eapply heap_ok_commit; [|exact Hk|exact (X (proj1 Hk))|exact B].
      apply ResistantVirus_reproduce_allocates.
Qed.

Lemma update_keeps_heap_ok_witness :
  (heap_ok (viruses patient_a) world_a /\
   heap_ok (viruses (patient treated_a)) world_a) /\
  heap_ok (viruses (fst (snd (Patient_update (patient_a, world_a)))))
    (snd (snd (Patient_update (patient_a, world_a)))) /\
  heap_ok (viruses (patient (fst (snd (TreatedPatient_update
                                         (treated_a, world_a))))))
    (snd (snd (TreatedPatient_update (treated_a, world_a)))).
Proof.
  split; [split; [apply heap_ok_patient_a|apply heap_ok_treated_a]|]. split.
  - exact (proj1 update_keeps_heap_ok patient_a world_a heap_ok_patient_a).
  - exact (proj2 update_keeps_heap_ok treated_a world_a heap_ok_treated_a).
Defined.

(** ** Random draws consumed by [Patient.update] *)

Lemma simple_breeds_draws (popDensity : Q) w vs offspring w' :
  breeds (fun v => SimpleVirus_reproduce v popDensity) w vs offspring w' ->
  cursor w' = (cursor w + length vs)%nat.
Proof.
  induction 1 as [w|w s c w1 rest o w2 E B IH|w s w1 rest o w2 E B IH];
    simpl; [lia| |];
    rewrite SimpleVirus_reproduce_eq in E;
    destruct (Qle_bool _ _); inversion E; subst; simpl in IH; lia.
Qed.

(** X12. A call of [Patient.update()] that returns [n] has consumed exactly
    one random draw per particle present before the step and one per
    survivor, and has created exactly [n] minus the number of survivors new
    objects; the outcomes still to come from the random source are
    unchanged. *)
Theorem Patient_update_draws (self : Patient SimpleVirus) (w : World) (n : nat) :
  fst (Patient_update (self, w)) = Returned n ->
  let survivors := length (survivors_of (rnd w) (cursor w) (viruses self)) in
  let w' := snd (snd (Patient_update (self, w))) in
  cursor w' = (cursor w + length (viruses self) + survivors)%nat /\
  fresh w' = (fresh w + (n - survivors))%nat /\
  rnd w' = rnd w.
Proof.
  intros R.
  destruct (Patient_update_cases self w)
    as (s & L & _ & _ & [[_ E]|[_ (o & w' & E & B)]]);
    rewrite E in R |- *; simpl in R; [discriminate|].
  inversion R; subst n. simpl.
  pose proof (simple_breeds_draws B) as C.
  destruct (breeds_allocation (SimpleVirus_reproduce_allocates _) B)
    as (_ & F & Rn & _).
  simpl in C, F, Rn. rewrite length_app, <- L. repeat split; try lia; assumption.
Qed.

Lemma Patient_update_draws_witness :
  fst (Patient_update (patient_a, world_a)) = Returned 2%nat /\
  cursor (snd (snd (Patient_update (patient_a, world_a))))
  = (cursor world_a + length (viruses patient_a)
     + length (survivors_of (rnd world_a) (cursor world_a)
                 (viruses patient_a)))%nat /\
  fresh (snd (snd (Patient_update (patient_a, world_a))))
  = (fresh world_a
     + (2 - length (survivors_of (rnd world_a) (cursor world_a)
                      (viruses patient_a))))%nat /\
  rnd (snd (snd (Patient_update (patient_a, world_a)))) = rnd world_a.
Proof.
  assert (H : fst (Patient_update (patient_a, world_a)) = Returned 2%nat)
    by reflexivity.
  split; [exact H|].
  exact (@Patient_update_draws patient_a world_a 2%nat H).
Defined.

(** ** A host whose particles neither clear nor reproduce, over time *)

(** X13. On a host whose particles all have [clearProb = 0] and
    [maxBirthProb = 0] (and [maxPop <> 0]), as long as no draw is exactly
    [0.0], any number of [update()] calls leaves the host exactly as it was;
    each call consumes two draws per particle. *)
Theorem inert_host_invariant_without_zero_draw
    (self : Patient SimpleVirus) (w : World) (n : nat) :
  (forall v, In v (viruses self) -> clearProb v == 0 /\ maxBirthProb v == 0) ->
  maxPop self <> 0%Z ->
  positive_draws w ->
  Patient_steps n (self, w) = (self, skip (n * (2 * length (viruses self))) w).
Proof.
  intros I Hmp. revert w. induction n as [|n IH]; intros w P; simpl.
  - rewrite skip_0. reflexivity.
  - rewrite (Patient_update_inert self I Hmp P). simpl.
    rewrite IH by (apply positive_draws_skip, P).
    rewrite skip_skip. do 2 f_equal. lia.
Qed.

Lemma inert_host_invariant_without_zero_draw_witness :
  ((forall v, In v (viruses patient_inert) ->
              clearProb v == 0 /\ maxBirthProb v == 0) /\
   maxPop patient_inert <> 0%Z /\ positive_draws world_fifth) /\
  Patient_steps 5 (patient_inert, world_fifth)
  = (patient_inert, skip (5 * (2 * length (viruses patient_inert))) world_fifth).
Proof.
  assert (H1 : forall v, In v (viruses patient_inert) ->
                         clearProb v == 0 /\ maxBirthProb v == 0).
  { simpl. intros v [<-|[<-|[]]]; split; reflexivity. }
  assert (H2 : maxPop patient_inert <> 0%Z) by (simpl; lia).
  split; [repeat split; solve [assumption | apply positive_world_fifth
                               | apply H1; assumption]|].
  exact (@inert_host_invariant_without_zero_draw patient_inert world_fifth 5
           H1 H2 positive_world_fifth).
Defined.

(** ** A treated patient without drugs and without resistance traits *)

Lemma list_remove_map_base (x : ResistantVirus) (l : list ResistantVirus) :
  list_remove (base x) (map base l)
  = match list_remove x l with
    | Some l' => Some (map base l')
    | None => None
    end.
Proof.
  induction l as [|y l IH]; simpl; [reflexivity|].
  unfold same_object. simpl.
  destruct (oid (base y) =? oid (base x))%nat; [reflexivity|].
  rewrite IH. destruct (list_remove x l); reflexivity.
Qed.

Lemma for_in_cons {S A L} (x : A) (xs : list A) (body : A -> L -> M S L)
    (acc : L) (s : S) :
  for_in (x :: xs) body acc s
  = match body x acc s with
    | (Returned acc', s') => for_in xs body acc' s'
    | (Raised e, s') => (Raised e, s')
    end.
Proof. reflexivity. Qed.

Lemma clear_step_eq {V} `{Particle V} (v : V) (acc : list V) (w : World) :
  clear_step v acc w
  = if Qle_bool (rnd w (cursor w)) (clearProb (simple v))
    then (match list_remove v acc with
          | Some l => Returned l
          | None => Raised ValueError
          end, skip 1 w)
    else (Returned acc, skip 1 w).
Proof.
  unfold clear_step, doesClear, bind, random, getClearProb, remove, ret, raise,
    skip. simpl.
  destruct (Qle_bool (rnd w (cursor w)) (clearProb (simple v))); simpl;
    [|reflexivity].
  destruct (list_remove v acc); reflexivity.
Qed.

Lemma clear_loop_map_base (vs : list ResistantVirus) :
  forall (acc : list ResistantVirus) (w : World),
    for_in (map base vs) clear_step (map base acc) w
    = (outcome_map (map base) (fst (for_in vs clear_step acc w)),
       snd (for_in vs clear_step acc w)).
Proof.
  induction vs as [|v vs IH]; intros acc w; [reflexivity|].
  cbn [map]. rewrite !for_in_cons, !clear_step_eq. cbn [simple SimpleVirus_Particle
    ResistantVirus_Particle].
  destruct (Qle_bool (rnd w (cursor w)) (clearProb (base v))).
  - rewrite list_remove_map_base.
    destruct (list_remove v acc) as [acc'|]; [apply IH|reflexivity].
  - apply IH.
Qed.

Lemma breed_step_eq {V} (call : V -> M World V) (v : V) (acc : list V)
    (w : World) :
  breed_step call v acc w
  = match call v w with
    | (Returned c, w') => (Returned (acc ++ [c]), w')
    | (Raised NoChildException, w') => (Returned acc, w')
    | (Raised e, w') => (Raised e, w')
    end.
Proof.
  unfold breed_step, try_except, bind, ret.
  destruct (call v w) as [[c|[]] w']; reflexivity.
Qed.

Lemma reproduce_without_traits (v : ResistantVirus) (popDensity : Q) (w : World) :
  resistances v = [] ->
  ResistantVirus_reproduce v popDensity [] w
  = (outcome_map (fun c => mkResistantVirus c [] (mutProb v))
       (fst (SimpleVirus_reproduce (base v) popDensity w)),
     snd (SimpleVirus_reproduce (base v) popDensity w)).
Proof.
  intros E. rewrite SimpleVirus_reproduce_eq.
  unfold ResistantVirus_reproduce, bind, random, getMaxBirthProb,
    getResistances, getClearProb, getMutProb. simpl.
  destruct (Qle_bool _ _); [|reflexivity].
  rewrite E. reflexivity.
Qed.

Lemma breed_loop_map_base (popDensity : Q) (vs : list ResistantVirus) :
  (forall v, In v vs -> resistances v = []) ->
  forall (acc : list ResistantVirus) (w : World),
    (forall v, In v acc -> resistances v = []) ->
    for_in (map base vs)
      (breed_step (fun v => SimpleVirus_reproduce v popDensity)) (map base acc) w
    = (outcome_map (map base)
         (fst (for_in vs
                 (breed_step (fun v => ResistantVirus_reproduce v popDensity []))
                 acc w)),
       snd (for_in vs
              (breed_step (fun v => ResistantVirus_reproduce v popDensity []))
              acc w)) /\
    forall out,
      fst (for_in vs
             (breed_step (fun v => ResistantVirus_reproduce v popDensity []))
             acc w) = Returned out ->
      forall v, In v out -> resistances v = [].
Proof.
  induction vs as [|v vs IH]; intros Hvs acc w Hacc.
  - split; [reflexivity|]. intros out E. inversion E; subst. exact Hacc.
  - assert (Hv : resistances v = []) by (apply Hvs; left; reflexivity).
    assert (Hvs' : forall v', In v' vs -> resistances v' = [])
      by (intros v' Hv'; apply Hvs; right; assumption).
    cbn [map]. rewrite !for_in_cons, !breed_step_eq.
    rewrite (reproduce_without_traits v popDensity w Hv).
    rewrite SimpleVirus_reproduce_eq.
    destruct (Qle_bool _ _); cbn [fst snd outcome_map].
    + specialize (IH Hvs'
        (acc ++ [mkResistantVirus
                   (mkSimpleVirus (fresh w) (maxBirthProb (base v))
                      (clearProb (base v))) [] (mutProb v)])
        (mkWorld (rnd w) (S (cursor w)) (S (fresh w)))).
      rewrite map_app in IH. cbn [map base] in IH. apply IH.
      intros v' Hv'. apply in_app_or in Hv'.
      destruct Hv' as [Hv'|[<-|[]]]; [apply Hacc; assumption|reflexivity].
    + apply IH; assumption.
Qed.

(** X14. A [TreatedPatient] with no prescription whose particles carry no
    resistance trait behaves exactly as the [Patient] holding the same
    particles: [update()] gives the same outcome, consumes the same draws,
    and leaves the same particles; the new particles again carry no trait. *)
Theorem treated_without_drugs_is_patient (t : TreatedPatient) (w : World) :
  prescriptions t = [] ->
  (forall v, In v (viruses (patient t)) -> resistances v = []) ->
  Patient_update (as_patient t, w)
  = (fst (TreatedPatient_update (t, w)),
     (as_patient (fst (snd (TreatedPatient_update (t, w)))),
      snd (snd (TreatedPatient_update (t, w))))) /\
  prescriptions (fst (snd (TreatedPatient_update (t, w)))) = [] /\
  (forall v, In v (viruses (patient (fst (snd (TreatedPatient_update (t, w))))))
             -> resistances v = []).
Proof.
  intros Hp Hr.
  destruct (clearance_phase (viruses (patient t)) w) as (srv & Es & _ & I & _).
  assert (Hs : forall v, In v srv -> resistances v = [])
    by (intros v Hv; apply Hr, I, Hv).
  pose proof (clear_loop_map_base (viruses (patient t)) (viruses (patient t)) w)
    as C. rewrite Es in C. simpl in C.
  unfold Patient_update, TreatedPatient_update, as_patient, bind, get_self,
    set_self, lift, true_div, getViruses, getTotalPop, getMaxPop,
    getPrescriptions, ret, raise. simpl.
  rewrite C, Es. simpl. rewrite length_map, Hp.
  destruct (maxPop (patient t) =? 0)%Z; simpl.
  - split; [reflexivity|]. split; [reflexivity|exact Hs].
  - set (pd := inject_Z (Z.of_nat (length srv)) / inject_Z (maxPop (patient t))).
    destruct (@breed_loop_map_base pd srv Hs [] (skip (length (viruses (patient t))) w))
      as (B & T); [intros v []|].
    simpl in B. rewrite B.
    destruct (for_in srv
                (breed_step (fun v => ResistantVirus_reproduce v pd []))
                [] (skip (length (viruses (patient t))) w))
      as [[off|e] w'] eqn:Eo; simpl.
    + rewrite <- map_app, !length_map. split; [reflexivity|].
      split; [reflexivity|].
      intros v Hv. apply in_app_or in Hv. destruct Hv as [Hv|Hv].
      * apply Hs, Hv.
      * eapply T; [reflexivity|exact Hv].
    + split; [reflexivity|]. split; [reflexivity|exact Hs].
Qed.

Lemma treated_without_drugs_is_patient_witness :
  (prescriptions treated_plain = [] /\
   (forall v, In v (viruses (patient treated_plain)) -> resistances v = [])) /\
  Patient_update (as_patient treated_plain, world_a)
  = (fst (TreatedPatient_update (treated_plain, world_a)),
     (as_patient (fst (snd (TreatedPatient_update (treated_plain, world_a)))),
      snd (snd (TreatedPatient_update (treated_plain, world_a))))).
Proof.
  assert (H1 : prescriptions treated_plain = []) by reflexivity.
  assert (H2 : forall v, In v (viruses (patient treated_plain)) ->
                         resistances v = []).
  { simpl. intros v [<-|[<-|[]]]; reflexivity. }
  split; [split; assumption|].
  exact (proj1 (@treated_without_drugs_is_patient treated_plain world_a H1 H2)).
Defined.

(** ** The simulation drivers *)

Lemma dfor_cons {A L} (x : A) (xs : list A) (body : A -> L -> D L)
    (acc : L) (w : World) :
  dfor (x :: xs) body acc w
  = match body x acc w with
    | (Done acc', w') => dfor xs body acc' w'
    | (Failed e, w') => (Failed e, w')
    end.
Proof. reflexivity. Qed.

(** A loop whose body keeps an invariant and never fails. *)
Lemma dfor_invariant {A L} (inv : L -> World -> Prop) (xs : list A)
    (body : A -> L -> D L) :
  (forall x acc w, In x xs -> inv acc w ->
     exists acc' w', body x acc w = (Done acc', w') /\ inv acc' w') ->
  forall acc w, inv acc w ->
    exists acc' w', dfor xs body acc w = (Done acc', w') /\ inv acc' w'.
Proof.
  induction xs as [|x xs IH]; intros Hbody acc w Hinv.
  - exists acc, w. split; [reflexivity|assumption].
  - destruct (Hbody x acc w (or_introl eq_refl) Hinv) as (acc1 & w1 & E & Hinv1).
    rewrite dfor_cons, E. apply IH; [|assumption].
    intros x' acc' w' Hx'. apply Hbody. right; assumption.
Qed.

Lemma range_lt (n : Z) (i : nat) : In i (range n) -> (i < Z.to_nat n)%nat.
Proof. unfold range. intros Hin. apply in_seq in Hin. lia. Qed.

Lemma length_zeros : length zeros = Z.to_nat numTimeSteps.
Proof. apply repeat_length. Qed.

Lemma get_at_eq (l : list Q) (i : nat) (w : World) :
  (i < length l)%nat ->
  exists x, nth_error l i = Some x /\ get_at l i w = (Done x, w).
Proof.
  intros Hi. unfold get_at.
  destruct (nth_error l i) as [x|] eqn:E.
  - exists x. split; reflexivity.
  - apply nth_error_None in E. lia.
Qed.

Lemma set_at_eq (l : list Q) (i : nat) (x : Q) (w : World) :
  (i < length l)%nat -> set_at l i x w = (Done (updated l i x), w).
Proof.
  intros Hi. unfold set_at. apply Nat.ltb_lt in Hi. rewrite Hi. reflexivity.
Qed.

Lemma length_updated (l : list Q) (i : nat) (x : Q) :
  (i < length l)%nat -> length (updated l i x) = length l.
Proof.
  intros Hi. unfold updated.
  rewrite length_app. cbn [length]. rewrite length_firstn, length_skipn. lia.
Qed.

Lemma Forall2_updated (R : Q -> Q -> Prop) (l1 l2 : list Q) :
  Forall2 R l1 l2 ->
  forall i x1 x2, R x1 x2 -> Forall2 R (updated l1 i x1) (updated l2 i x2).
Proof.
  unfold updated. induction 1 as [|a b l1 l2 Hab F IH]; intros i x1 x2 Hx.
  - destruct i; simpl; repeat constructor; assumption.
  - destruct i; simpl.
    + constructor; assumption.
    + constructor; [assumption|]. apply IH. assumption.
Qed.

Lemma Forall2_nth_error (R : Q -> Q -> Prop) (l1 l2 : list Q) :
  Forall2 R l1 l2 ->
  forall i x1 x2,
    nth_error l1 i = Some x1 -> nth_error l2 i = Some x2 -> R x1 x2.
Proof.
  induction 1 as [|a b l1 l2 Hab F IH]; intros i x1 x2 E1 E2.
  - destruct i; discriminate.
  - destruct i; simpl in *.
    + inversion E1; inversion E2; subst. assumption.
    + eapply IH; eassumption.
Qed.

Lemma Forall_updated (P : Q -> Prop) (l : list Q) :
  Forall P l -> forall i x, P x -> Forall P (updated l i x).
Proof.
  unfold updated. induction 1 as [|a l Ha F IH]; intros i x Hx.
  - destruct i; simpl; repeat constructor; assumption.
  - destruct i; simpl.
    + constructor; assumption.
    + constructor; [assumption|]. apply IH. assumption.
Qed.

Lemma Forall_nth_error (P : Q -> Prop) (l : list Q) (i : nat) (x : Q) :
  Forall P l -> nth_error l i = Some x -> P x.
Proof.
  intros F E. rewrite Forall_forall in F. apply F.
  eapply nth_error_In; eassumption.
Qed.

(** The first loop of each driver. *)
Lemma initial_list (w : World) :
  dfor (range numTimeSteps) append_zero [] w = (Done zeros, w).
Proof. reflexivity. Qed.

Lemma initial_lists (w : World) :
  dfor (range numTimeSteps)
    (fun (time : nat) '(totalVirusPop, resistantVirusPop) =>
       totalVirusPop <~ append_zero time totalVirusPop ;;
       resistantVirusPop <~ append_zero time resistantVirusPop ;;
       dret (totalVirusPop, resistantVirusPop))
    ([], []) w
  = (Done (zeros, zeros), w).
Proof. reflexivity. Qed.

Lemma divide_at_eq (numTrials : Z) (done todo : list Q) (x : Q) (w : World) :
  numTrials <> 0%Z ->
  divide_at numTrials (done ++ x :: todo) (length done) w
  = (Done ((done ++ [x / inject_Z numTrials]) ++ todo), w).
Proof.
  intros Hn. unfold divide_at, dbind.
  assert (G : get_at (done ++ x :: todo) (length done) w = (Done x, w)).
  { unfold get_at. rewrite nth_error_app2, Nat.sub_diag by lia. reflexivity. }
  assert (V : div_by x numTrials w = (Done (x / inject_Z numTrials), w)).
  { unfold div_by.
    destruct (Z.eqb_spec numTrials 0); [contradiction|reflexivity]. }
  rewrite G, V, set_at_eq by (rewrite length_app; simpl; lia).
  unfold updated. rewrite firstn_app, Nat.sub_diag, firstn_all. simpl firstn.
  rewrite app_nil_r, skipn_app, skipn_all2 by lia.
  replace (S (length done) - length done)%nat with 1%nat by lia.
  simpl. rewrite <- app_assoc. reflexivity.
Qed.

(** The averaging loops divide every entry by [numTrials]. *)
Lemma averaging_loop (numTrials : Z) (w : World) (todo : list Q) :
  numTrials <> 0%Z ->
  forall done : list Q,
    dfor (seq (length done) (length todo))
      (fun time virusPop => divide_at numTrials virusPop time)
      (done ++ todo) w
    = (Done (done ++ map (fun x => x / inject_Z numTrials) todo), w).
Proof.
  intros Hn. induction todo as [|x todo IH]; intros done; [reflexivity|].
  simpl seq. rewrite dfor_cons, divide_at_eq by assumption.
  specialize (IH (done ++ [x / inject_Z numTrials])).
  rewrite length_app in IH. simpl in IH.
  replace (length done + 1)%nat with (S (length done)) in IH by lia.
  rewrite IH, <- app_assoc. reflexivity.
Qed.

Lemma averaging_loop_with_drug (numTrials : Z) (w : World) :
  numTrials <> 0%Z ->
  forall (todo1 todo2 done1 done2 : list Q),
    length todo1 = length todo2 ->
    length done1 = length done2 ->
    dfor (seq (length done1) (length todo1))
      (average_step_with_drug numTrials) (done1 ++ todo1, done2 ++ todo2) w
    = (Done (done1 ++ map (fun x => x / inject_Z numTrials) todo1,
             done2 ++ map (fun x => x / inject_Z numTrials) todo2), w).
Proof.
  intros Hn. induction todo1 as [|x1 todo1 IH];
    intros [|x2 todo2] done1 done2 Lt Ld; try discriminate; [reflexivity|].
  simpl seq. rewrite dfor_cons.
  assert (B : average_step_with_drug numTrials (length done1)
                (done1 ++ x1 :: todo1, done2 ++ x2 :: todo2) w
              = (Done ((done1 ++ [x1 / inject_Z numTrials]) ++ todo1,
                       (done2 ++ [x2 / inject_Z numTrials]) ++ todo2), w)).
  { unfold average_step_with_drug, dbind.
    rewrite divide_at_eq by assumption. rewrite Ld.
    rewrite divide_at_eq by assumption. reflexivity. }
  rewrite B.
  specialize (IH todo2 (done1 ++ [x1 / inject_Z numTrials])
                (done2 ++ [x2 / inject_Z numTrials])).
  rewrite !length_app in IH. simpl in IH, Lt.
  replace (length done1 + 1)%nat with (S (length done1)) in IH by lia.
  rewrite IH by lia. rewrite <- !app_assoc. reflexivity.
Qed.

(** Creating the initial particles never fails. *)
Lemma creation_loop {V} (new : M World V) (numViruses : list nat) :
  (forall w, exists v w', new w = (Returned v, w')) ->
  forall (acc : list V) (w : World),
    exists vs w', dfor numViruses (create_step new) acc w = (Done vs, w').
Proof.
  intros Hnew. induction numViruses as [|i rest IH]; intros acc w.
  - exists acc, w. reflexivity.
  - rewrite dfor_cons. unfold create_step at 1. unfold dbind, core.
    destruct (Hnew w) as (v & w1 & E). rewrite E. unfold dret. apply IH.
Qed.

Lemma SimpleVirus_init_returns (b c : Q) (w : World) :
  exists v w', SimpleVirus_init b c w = (Returned v, w').
Proof. eexists. eexists. reflexivity. Qed.

Lemma ResistantVirus_init_returns (b c : Q) (d : dict) (m : Q) (w : World) :
  exists v w', ResistantVirus_init b c d m w = (Returned v, w').
Proof. eexists. eexists. reflexivity. Qed.

Lemma add_at_done {H} (l : list Q) (i : nat) (rhs : D (nat * H)) (w w' : World)
    (n : nat) (h : H) :
  (i < length l)%nat ->
  rhs w = (Done (n, h), w') ->
  exists old,
    nth_error l i = Some old /\
    add_at l i rhs w
    = (Done (updated l i (old + inject_Z (Z.of_nat n)), h), w').
Proof.
  intros Hi E. destruct (get_at_eq l w Hi) as (old & N & G).
  exists old. split; [exact N|].
  unfold add_at, dbind. rewrite G, E, set_at_eq by assumption. reflexivity.
Qed.

Lemma add_at_failed {H} (l : list Q) (i : nat) (rhs : D (nat * H)) (w w' : World)
    (e : driver_exn) :
  (i < length l)%nat ->
  rhs w = (Failed e, w') ->
  add_at l i rhs w = (Failed e, w').
Proof.
  intros Hi E. destruct (get_at_eq l w Hi) as (old & N & G).
  unfold add_at, dbind. rewrite G, E. reflexivity.
Qed.

Lemma Patient_update_method (p : Patient SimpleVirus) (w : World) :
  (maxPop p = 0%Z /\
   exists w', method Patient_update p w
              = (Failed (CoreError ZeroDivisionError), w')) \/
  (maxPop p <> 0%Z /\
   exists n p' w', method Patient_update p w = (Done (n, p'), w') /\
                   maxPop p' = maxPop p).
Proof.
  unfold method.
  destruct (Patient_update_cases p w)
    as (s & _ & _ & _ & [[E0 E]|[N0 (o & w' & E & _)]]); rewrite E.
  - left. split; [exact E0|]. eauto.
  - right. split; [exact N0|]. do 3 eexists. split; reflexivity.
Qed.

Lemma TreatedPatient_update_method (p : TreatedPatient) (w : World) :
  (maxPop (patient p) = 0%Z /\
   exists w', method TreatedPatient_update p w
              = (Failed (CoreError ZeroDivisionError), w')) \/
  (maxPop (patient p) <> 0%Z /\
   exists n p' w', method TreatedPatient_update p w = (Done (n, p'), w') /\
                   maxPop (patient p') = maxPop (patient p) /\
                   n = getTotalPop (patient p')).
Proof.
  unfold method.
  destruct (TreatedPatient_update_cases p w)
    as (s & _ & _ & _ & [[E0 E]|[N0 (o & w' & E & _)]]); rewrite E.
  - left. split; [exact E0|]. eauto.
  - right. split; [exact N0|]. do 3 eexists. repeat split.
Qed.

Lemma nonneg_sum (old : Q) (n : nat) :
  0 <= old -> 0 <= old + inject_Z (Z.of_nat n).
Proof.
  intros Ho. assert (0 <= inject_Z (Z.of_nat n)).
  { change 0 with (inject_Z 0). rewrite <- Zle_Qle. lia. }
  lra.
Qed.

Lemma time_loop_without_drug (maxPop0 : Z) (times : list nat) :
  maxPop0 <> 0%Z ->
  (forall t, In t times -> (t < Z.to_nat numTimeSteps)%nat) ->
  forall (virusPop : list Q) (p : Patient SimpleVirus) (w : World),
    length virusPop = Z.to_nat numTimeSteps ->
    Forall (fun x => 0 <= x) virusPop ->
    maxPop p = maxPop0 ->
    exists virusPop' p' w',
      dfor times time_step_without_drug (virusPop, p) w
      = (Done (virusPop', p'), w') /\
      length virusPop' = Z.to_nat numTimeSteps /\
      Forall (fun x => 0 <= x) virusPop'.
Proof.
  intros Hmp Ht vp p w L F Ep.
  destruct (@dfor_invariant _ _
              (fun (st : list Q * Patient SimpleVirus) (_ : World) =>
                 length (fst st) = Z.to_nat numTimeSteps /\
                 Forall (fun x => 0 <= x) (fst st) /\
                 maxPop (snd st) = maxPop0)
              times time_step_without_drug) with (acc := (vp, p)) (w := w)
    as ([vp' p'] & w' & E & L' & F' & _).
  - intros t [vp1 p1] w1 Hin (L1 & F1 & E1). cbn [fst snd] in L1, F1, E1.
    unfold time_step_without_drug.
    destruct (Patient_update_method p1 w1)
      as [[E0 _]|[_ (n & p2 & w2 & Em & Emp)]]; [congruence|].
    destruct (@add_at_done _ vp1 t (method Patient_update p1) w1 w2 n p2)
      as (old & N & Ea);
      [rewrite L1; apply Ht, Hin|exact Em|].
    rewrite Ea. do 2 eexists. split; [reflexivity|]. cbn [fst snd].
    split; [rewrite length_updated; [exact L1|rewrite L1; apply Ht, Hin]|].
    split; [|congruence].
    apply Forall_updated; [assumption|].
    apply nonneg_sum. eapply Forall_nth_error; eassumption.
  - simpl. auto.
  - exists vp', p', w'. auto.
Qed.

Lemma trial_loop_without_drug (numViruses maxPop : Z) (b c : Q)
    (trials : list nat) :
  maxPop <> 0%Z ->
  forall (virusPop : list Q) (w : World),
    length virusPop = Z.to_nat numTimeSteps ->
    Forall (fun x => 0 <= x) virusPop ->
    exists virusPop' w',
      dfor trials (trial_without_drug numViruses maxPop b c) virusPop w
      = (Done virusPop', w') /\
      length virusPop' = Z.to_nat numTimeSteps /\
      Forall (fun x => 0 <= x) virusPop'.
Proof.
  intros Hmp vp w L F.
  apply (@dfor_invariant _ _
           (fun (l : list Q) (_ : World) =>
              length l = Z.to_nat numTimeSteps /\ Forall (fun x => 0 <= x) l));
    [|auto].
  intros trial vp1 w1 _ (L1 & F1).
  unfold trial_without_drug, dbind.
  destruct (@creation_loop _ (SimpleVirus_init b c) (range numViruses)
              (SimpleVirus_init_returns b c) [] w1) as (vs & w2 & Ec).
  rewrite Ec. unfold core, Patient_init.
  destruct (@time_loop_without_drug maxPop (range numTimeSteps) Hmp
              (range_lt numTimeSteps) vp1 (mkPatient vs maxPop) w2 L1 F1 eq_refl)
    as (vp2 & p2 & w3 & Et & L2 & F2).
  rewrite Et. do 2 eexists. split; [reflexivity|]. simpl. auto.
Qed.

Lemma Forall_nonneg_zeros : Forall (fun x => 0 <= x) zeros.
Proof.
  unfold zeros. apply Forall_forall. intros x Hx.
  apply repeat_spec in Hx. subst. apply Qle_refl.
Qed.

Lemma averaging_phase (numTrials : Z) (l : list Q) (w : World) :
  numTrials <> 0%Z ->
  length l = Z.to_nat numTimeSteps ->
  dfor (range numTimeSteps)
    (fun time virusPop => divide_at numTrials virusPop time) l w
  = (Done (map (fun x => x / inject_Z numTrials) l), w).
Proof.
  intros Hn L. unfold range. rewrite <- L.
  exact (@averaging_loop numTrials w l Hn []).
Qed.

Lemma averaging_phase_with_drug (numTrials : Z) (l1 l2 : list Q) (w : World) :
  numTrials <> 0%Z ->
  length l1 = Z.to_nat numTimeSteps ->
  length l2 = Z.to_nat numTimeSteps ->
  dfor (range numTimeSteps) (average_step_with_drug numTrials) (l1, l2) w
  = (Done (map (fun x => x / inject_Z numTrials) l1,
           map (fun x => x / inject_Z numTrials) l2), w).
Proof.
  intros Hn L1 L2. unfold range. rewrite <- L1.
  apply (@averaging_loop_with_drug numTrials w Hn l1 l2 [] []);
    [congruence|reflexivity].
Qed.

Lemma average_nonneg (numTrials : Z) (l : list Q) :
  (0 < numTrials)%Z -> Forall (fun x => 0 <= x) l ->
  Forall (fun x => 0 <= x) (map (fun x => x / inject_Z numTrials) l).
Proof.
  intros Hn F. apply Forall_forall. intros y Hy.
  apply in_map_iff in Hy. destruct Hy as (x & <- & Hx).
  rewrite Forall_forall in F. specialize (F x Hx).
  apply Qle_shift_div_l.
  - change 0 with (inject_Z 0). rewrite <- Zlt_Qlt. exact Hn.
  - rewrite Qmult_0_l. exact F.
Qed.

(** X15. With [numTrials >= 1] and [maxPop <> 0], [simulationWithoutDrug]
    never raises (no [IndexError], no error from a host) and hands to the
    plot a list of exactly [numTimeSteps = 300] averages, none of them
    negative, whatever the other parameters and the random draws. *)
Theorem simulationWithoutDrug_plots_300_averages
    (numViruses maxPop : Z) (maxBirthProb clearProb : Q) (numTrials : Z)
    (w : World) :
  (0 < numTrials)%Z ->
  maxPop <> 0%Z ->
  exists virusPop w',
    simulationWithoutDrug numViruses maxPop maxBirthProb clearProb numTrials w
    = (Done virusPop, w') /\
    length virusPop = 300%nat /\
    Forall (fun x => 0 <= x) virusPop.
Proof.
  intros Hn Hmp. unfold simulationWithoutDrug, dbind.
  rewrite initial_list.
  destruct (@trial_loop_without_drug numViruses maxPop maxBirthProb clearProb
              (range numTrials) Hmp zeros w length_zeros Forall_nonneg_zeros)
    as (sums & w' & Et & L & F).
  rewrite Et, averaging_phase by (assumption || lia).
  exists (map (fun x => x / inject_Z numTrials) sums), w'.
  split; [reflexivity|]. split.
  - rewrite length_map, L. reflexivity.
  - apply average_nonneg; assumption.
Qed.

Lemma simulationWithoutDrug_plots_300_averages_witness :
  ((0 < 2)%Z /\ (10 <> 0)%Z) /\
  exists virusPop w',
    simulationWithoutDrug 2 10 (1 # 2) (1 # 10) 2 world_a = (Done virusPop, w') /\
    length virusPop = 300%nat /\
    Forall (fun x => 0 <= x) virusPop.
Proof.
  assert (H1 : (0 < 2)%Z) by lia.
  assert (H2 : (10 <> 0)%Z) by lia.
  split; [split; assumption|].
  exact (@simulationWithoutDrug_plots_300_averages 2 10 (1 # 2) (1 # 10) 2
           world_a H1 H2).
Defined.

Lemma getResistPop_le_total (self : TreatedPatient) (drugs : list string) :
  (getResistPop self drugs <= getTotalPop (patient self))%nat.
Proof.
  rewrite getResistPop_eq. unfold getTotalPop.
  destruct drugs; [lia|apply filter_length_total].
Qed.

Lemma addPrescription_method (d : string) (p : TreatedPatient) (w : World) :
  exists p',
    method (addPrescription d) p w = (Done (tt, p'), w) /\
    patient p' = patient p.
Proof.
  unfold method. rewrite addPrescription_eq.
  destruct (py_in d (prescriptions p)); eexists; split; reflexivity.
Qed.

Lemma between_sums (r t : Q) (g n : nat) :
  0 <= r <= t -> (g <= n)%nat ->
  0 <= r + inject_Z (Z.of_nat g) <= t + inject_Z (Z.of_nat n).
Proof.
  intros [Hr Hrt] Hgn.
  assert (0 <= inject_Z (Z.of_nat g)).
  { change 0 with (inject_Z 0). rewrite <- Zle_Qle. lia. }
  assert (inject_Z (Z.of_nat g) <= inject_Z (Z.of_nat n)).
  { rewrite <- Zle_Qle. lia. }
  split; lra.
Qed.

Lemma time_loop_with_drug (maxPop0 : Z) (resistances : dict) (times : list nat) :
  maxPop0 <> 0%Z ->
  (forall t, In t times -> (t < Z.to_nat numTimeSteps)%nat) ->
  forall (total resistant : list Q) (p : TreatedPatient) (w : World),
    length total = Z.to_nat numTimeSteps ->
    Forall2 (fun r t => 0 <= r <= t) resistant total ->
    maxPop (patient p) = maxPop0 ->
    exists total' resistant' p' w',
      dfor times (time_step_with_drug resistances) (total, resistant, p) w
      = (Done (total', resistant', p'), w') /\
      length total' = Z.to_nat numTimeSteps /\
      Forall2 (fun r t => 0 <= r <= t) resistant' total'.
Proof.
  intros Hmp Ht total resistant p w L F Ep.
  destruct (@dfor_invariant _ _
              (fun (st : list Q * list Q * TreatedPatient) (_ : World) =>
                 length (fst (fst st)) = Z.to_nat numTimeSteps /\
                 Forall2 (fun r t => 0 <= r <= t) (snd (fst st)) (fst (fst st)) /\
                 maxPop (patient (snd st)) = maxPop0)
              times (time_step_with_drug resistances))
    with (acc := (total, resistant, p)) (w := w)
    as ([[t' r'] p'] & w' & E & L' & F' & _).
  - intros time [[t1 r1] p1] w1 Hin (L1 & F1 & E1). cbn [fst snd] in L1, F1, E1.
    assert (Hi : (time < length t1)%nat) by (rewrite L1; apply Ht, Hin).
    assert (Hj : (time < length r1)%nat)
      by (rewrite (Forall2_length F1); exact Hi).
    unfold time_step_with_drug. unfold dbind at 1.
    assert (Pre : exists p1',
               (if (time =? drugAdminTime)%nat
                then ' (_, sim_patient) <~
                       method (addPrescription drugToAdmin) p1 ;;
                     dret sim_patient
                else dret p1) w1 = (Done p1', w1) /\
               patient p1' = patient p1).
    { destruct (time =? drugAdminTime)%nat.
      - destruct (addPrescription_method drugToAdmin p1 w1) as (p1' & Ea & Ep1).
        exists p1'. unfold dbind. rewrite Ea. split; [reflexivity|exact Ep1].
      - exists p1. split; reflexivity. }
    destruct Pre as (p1' & -> & Ep1).
    destruct (TreatedPatient_update_method p1' w1)
      as [[E0 _]|[_ (n & p2 & w2 & Em & Emp & En)]];
      [rewrite Ep1 in E0; congruence|].
    destruct (@add_at_done _ t1 time (method TreatedPatient_update p1')
                w1 w2 n p2 Hi Em) as (ot & Nt & Eat).
    unfold dbind at 1. rewrite Eat.
    set (g := getResistPop p2 (keys resistances)).
    destruct (@add_at_done _ r1 time (dret (g, p2)) w2 w2 g p2 Hj eq_refl)
      as (or & Nr & Ear).
    unfold dbind at 1. rewrite Ear.
    do 2 eexists. split; [reflexivity|]. cbn [fst snd].
    split; [rewrite length_updated; assumption|].
    split; [|rewrite Emp, Ep1; exact E1].
    apply Forall2_updated; [assumption|].
    apply between_sums.
    + exact (Forall2_nth_error F1 time Nr Nt).
    + subst g. rewrite En. apply getResistPop_le_total.
  - cbn [fst snd]. auto.
  - exists t', r', p', w'. auto.
Qed.

Lemma trial_loop_with_drug (numViruses maxPop : Z) (b c : Q)
    (resistances : dict) (m : Q) (trials : list nat) :
  maxPop <> 0%Z ->
  forall (total resistant : list Q) (w : World),
    length total = Z.to_nat numTimeSteps ->
    Forall2 (fun r t => 0 <= r <= t) resistant total ->
    exists total' resistant' w',
      dfor trials (trial_with_drug numViruses maxPop b c resistances m)
        (total, resistant) w
      = (Done (total', resistant'), w') /\
      length total' = Z.to_nat numTimeSteps /\
      Forall2 (fun r t => 0 <= r <= t) resistant' total'.
Proof.
  intros Hmp total resistant w L F.
  destruct (@dfor_invariant _ _
              (fun (st : list Q * list Q) (_ : World) =>
                 length (fst st) = Z.to_nat numTimeSteps /\
                 Forall2 (fun r t => 0 <= r <= t) (snd st) (fst st))
              trials (trial_with_drug numViruses maxPop b c resistances m))
    with (acc := (total, resistant)) (w := w)
    as ([t' r'] & w' & E & L' & F').
  - intros trial [t1 r1] w1 _ (L1 & F1). cbn [fst snd] in L1, F1.
    unfold trial_with_drug, dbind.
    destruct (@creation_loop _ (ResistantVirus_init b c resistances m)
                (range numViruses)
                (ResistantVirus_init_returns b c resistances m) [] w1)
      as (vs & w2 & Ec).
    rewrite Ec. unfold core, TreatedPatient_init, Patient_init.
    destruct (@time_loop_with_drug maxPop resistances (range numTimeSteps) Hmp
                (range_lt numTimeSteps) t1 r1
                (mkTreatedPatient (mkPatient vs maxPop) []) w2 L1 F1 eq_refl)
      as (t2 & r2 & p2 & w3 & Et & L2 & F2).
    rewrite Et. do 2 eexists. split; [reflexivity|]. cbn [fst snd]. auto.
  - cbn [fst snd]. auto.
  - exists t', r', w'. auto.
Qed.

Lemma Forall2_zeros : Forall2 (fun r t => 0 <= r <= t) zeros zeros.
Proof.
  unfold zeros. induction (Z.to_nat numTimeSteps) as [|n IH]; simpl.
  - constructor.
  - constructor; [split; apply Qle_refl|exact IH].
Qed.

Lemma average_between (numTrials : Z) (resistant total : list Q) :
  (0 < numTrials)%Z ->
  Forall2 (fun r t => 0 <= r <= t) resistant total ->
  Forall2 (fun r t => 0 <= r <= t)
    (map (fun x => x / inject_Z numTrials) resistant)
    (map (fun x => x / inject_Z numTrials) total).
Proof.
  intros Hn. assert (Hq : 0 < inject_Z numTrials).
  { change 0 with (inject_Z 0). rewrite <- Zlt_Qlt. exact Hn. }
  induction 1 as [|r t rs ts [Hr Hrt] F IH]; simpl; constructor; [|exact IH].
  split.
  - apply Qle_shift_div_l; [exact Hq|]. rewrite Qmult_0_l. exact Hr.
  - apply Qle_shift_div_l; [exact Hq|].
    setoid_replace (r / inject_Z numTrials * inject_Z numTrials) with r
      by (field; lra).
    exact Hrt.
Qed.

(** X16. With [numTrials >= 1] and [maxPop <> 0], [simulationWithDrug] never
    raises and hands to the plot two lists of exactly [numTimeSteps = 300]
    averages; at every time step the resistant average is between [0] and
    the total average: the resistant curve never runs above the total
    curve. *)
Theorem simulationWithDrug_resistant_below_total
    (numViruses maxPop : Z) (maxBirthProb clearProb : Q) (resistances : dict)
    (mutProb : Q) (numTrials : Z) (w : World) :
  (0 < numTrials)%Z ->
  maxPop <> 0%Z ->
  exists totalVirusPop resistantVirusPop w',
    simulationWithDrug numViruses maxPop maxBirthProb clearProb resistances
      mutProb numTrials w
    = (Done (totalVirusPop, resistantVirusPop), w') /\
    length totalVirusPop = 300%nat /\
    length resistantVirusPop = 300%nat /\
    Forall2 (fun r t => 0 <= r <= t) resistantVirusPop totalVirusPop.
Proof.
  intros Hn Hmp. unfold simulationWithDrug, dbind.
  rewrite initial_lists.
  destruct (@trial_loop_with_drug numViruses maxPop maxBirthProb clearProb
              resistances mutProb (range numTrials) Hmp zeros zeros w
              length_zeros Forall2_zeros)
    as (ts & rs & w' & Et & L & F).
  assert (Lr : length rs = Z.to_nat numTimeSteps)
    by (rewrite (Forall2_length F); exact L).
  rewrite Et, averaging_phase_with_drug by (assumption || lia).
  do 3 eexists. split; [reflexivity|].
  rewrite !length_map, L, Lr.
  split; [reflexivity|]. split; [reflexivity|].
  apply average_between; assumption.
Qed.

Lemma simulationWithDrug_resistant_below_total_witness :
  ((0 < 2)%Z /\ (10 <> 0)%Z) /\
  exists totalVirusPop resistantVirusPop w',
    simulationWithDrug 2 10 (1 # 2) (1 # 10) [(drugToAdmin, false)] (1 # 50) 2
      world_a
    = (Done (totalVirusPop, resistantVirusPop), w') /\
    length totalVirusPop = 300%nat /\
    length resistantVirusPop = 300%nat /\
    Forall2 (fun r t => 0 <= r <= t) resistantVirusPop totalVirusPop.
Proof.
  assert (H1 : (0 < 2)%Z) by lia.
  assert (H2 : (10 <> 0)%Z) by lia.
  split; [split; assumption|].
  exact (@simulationWithDrug_resistant_below_total 2 10 (1 # 2) (1 # 10)
           [(drugToAdmin, false)] (1 # 50) 2 world_a H1 H2).
Defined.

(** ** The drivers on degenerate parameters *)

Lemma range_pos (n : Z) : (0 < n)%Z -> range n = 0%nat :: seq 1 (Z.to_nat n - 1).
Proof.
  intros Hn. unfold range.
  destruct (Z.to_nat n) as [|k] eqn:E; [lia|].
  simpl. rewrite Nat.sub_0_r. reflexivity.
Qed.

(** X17. With [numTrials = 0] both drivers raise [ZeroDivisionError] when
    they average; with [numTrials < 0] they run no trial and hand flat zero
    curves to the plot. In both cases no particle is created and no random
    number is drawn. *)
Theorem simulations_without_trials :
  (forall numViruses maxPop b c w,
      simulationWithoutDrug numViruses maxPop b c 0 w
      = (Failed (CoreError ZeroDivisionError), w)) /\
  (forall numViruses maxPop b c resistances m w,
      simulationWithDrug numViruses maxPop b c resistances m 0 w
      = (Failed (CoreError ZeroDivisionError), w)) /\
  (forall numViruses maxPop b c numTrials w,
      (numTrials < 0)%Z ->
      exists virusPop,
        simulationWithoutDrug numViruses maxPop b c numTrials w
        = (Done virusPop, w) /\
        length virusPop = 300%nat /\ Forall (fun x => x == 0) virusPop) /\
  (forall numViruses maxPop b c resistances m numTrials w,
      (numTrials < 0)%Z ->
      exists total resistant,
        simulationWithDrug numViruses maxPop b c resistances m numTrials w
        = (Done (total, resistant), w) /\
        length total = 300%nat /\ Forall (fun x => x == 0) total /\
        length resistant = 300%nat /\ Forall (fun x => x == 0) resistant).
Proof.
  assert (Z0 : forall n : Z,
             Forall (fun x => x == 0)
               (map (fun x => x / inject_Z n) zeros)).
  { intros n. apply Forall_forall. intros y Hy.
    apply in_map_iff in Hy. destruct Hy as (x & <- & Hx).
    apply repeat_spec in Hx. subst x. unfold Qdiv. apply Qmult_0_l. }
  assert (R : forall n, (n < 0)%Z -> range n = []).
  { intros n Hn. unfold range. destruct n; try lia. reflexivity. }
  split; [|split; [|split]].
  - intros. reflexivity.
  - intros. reflexivity.
  - intros nv mp b c nt w Hn.
    unfold simulationWithoutDrug, dbind. rewrite initial_list, (R nt Hn).
    cbn [dfor]. unfold dret at 1.
    rewrite averaging_phase by (apply length_zeros || lia).
    eexists. split; [reflexivity|]. split; [|apply Z0].
    rewrite length_map. reflexivity.
  - intros nv mp b c d m nt w Hn.
    unfold simulationWithDrug, dbind. rewrite initial_lists, (R nt Hn).
    cbn [dfor]. unfold dret at 1.
    rewrite averaging_phase_with_drug by (apply length_zeros || lia).
    do 2 eexists. split; [reflexivity|].
    rewrite !length_map. repeat split; try apply Z0; reflexivity.
Qed.

Lemma simulations_without_trials_witness :
  (-3 < 0)%Z /\
  exists virusPop,
    simulationWithoutDrug 2 10 (1 # 2) (1 # 10) (-3) world_a
    = (Done virusPop, world_a) /\
    length virusPop = 300%nat /\ Forall (fun x => x == 0) virusPop.
Proof.
  assert (H : (-3 < 0)%Z) by lia.
  split; [exact H|].
  destruct simulations_without_trials as (_ & _ & S3 & _).
  exact (S3 2%Z 10%Z (1 # 2) (1 # 10) (-3)%Z world_a H).
Defined.

(** X18. With [numTrials >= 1] and [maxPop = 0] both drivers raise
    [ZeroDivisionError]: the first [update()] of the first trial fails, and
    nothing is plotted. *)
Theorem simulations_with_zero_maxPop :
  (forall numViruses b c numTrials w,
      (0 < numTrials)%Z ->
      fst (simulationWithoutDrug numViruses 0 b c numTrials w)
      = Failed (CoreError ZeroDivisionError)) /\
  (forall numViruses b c resistances m numTrials w,
      (0 < numTrials)%Z ->
      fst (simulationWithDrug numViruses 0 b c resistances m numTrials w)
      = Failed (CoreError ZeroDivisionError)).
Proof.
  split.
  - intros nv b c nt w Hn.
    unfold simulationWithoutDrug, dbind. rewrite initial_list, (range_pos Hn).
    rewrite dfor_cons. unfold trial_without_drug at 1. unfold dbind.
    destruct (@creation_loop _ (SimpleVirus_init b c) (range nv)
                (SimpleVirus_init_returns b c) [] w) as (vs & w2 & Ec).
    rewrite Ec. unfold core, Patient_init.
    rewrite (@range_pos numTimeSteps eq_refl), dfor_cons.
    unfold time_step_without_drug at 1.
    destruct (Patient_update_method (mkPatient vs 0) w2)
      as [[_ (w3 & Em)]|[N0 _]]; [|contradiction].
    rewrite (@add_at_failed _ zeros 0%nat
               (method Patient_update (mkPatient vs 0)) w2 w3
               (CoreError ZeroDivisionError)); [reflexivity| |exact Em].
    rewrite length_zeros. apply Nat.ltb_lt. reflexivity.
  - intros nv b c d m nt w Hn.
    unfold simulationWithDrug, dbind. rewrite initial_lists, (range_pos Hn).
    rewrite dfor_cons. unfold trial_with_drug at 1. unfold dbind.
    destruct (@creation_loop _ (ResistantVirus_init b c d m) (range nv)
                (ResistantVirus_init_returns b c d m) [] w) as (vs & w2 & Ec).
    rewrite Ec. unfold core, TreatedPatient_init, Patient_init.
    rewrite (@range_pos numTimeSteps eq_refl), dfor_cons.
    unfold time_step_with_drug at 1. unfold dbind. cbn [Nat.eqb drugAdminTime].
    unfold dret at 1.
    destruct (TreatedPatient_update_method
                (mkTreatedPatient (mkPatient vs 0) []) w2)
      as [[_ (w3 & Em)]|[N0 _]]; [|contradiction].
    rewrite (@add_at_failed _ zeros 0%nat
               (method TreatedPatient_update
                  (mkTreatedPatient (mkPatient vs 0) [])) w2 w3
               (CoreError ZeroDivisionError)); [reflexivity| |exact Em].
    rewrite length_zeros. apply Nat.ltb_lt. reflexivity.
Qed.

Lemma simulations_with_zero_maxPop_witness :
  (0 < 2)%Z /\
  fst (simulationWithoutDrug 2 0 (1 # 2) (1 # 10) 2 world_a)
  = Failed (CoreError ZeroDivisionError).
Proof.
  assert (H : (0 < 2)%Z) by lia.
  split; [exact H|].
  exact (proj1 simulations_with_zero_maxPop 2%Z (1 # 2) (1 # 10) 2%Z world_a H).
Defined.
